(** * Proxy providers of clash: a shallow embedding

    The development follows [adapters/provider/provider.go] (the
    [ProxySetProvider] and the [CompatibleProvider]) and the address
    conversion [parseVmessAddr] of the vmess outbound adapter.

    Go values are modelled as the code has them:
    - a [[]byte] buffer is a [list byte]; no statement of the provider
      tells a nil buffer from an empty one, so both are [[]];
    - a slice whose nil-ness the code tests or publishes
      ([schema.Proxies], [pp.proxies]) is a [slice]: [None] is the nil
      slice, [Some l] a non-nil slice with elements [l];
    - a Go function returning [(T, error)] returns a pair whose second
      component is an [option error], [None] being the nil error: both
      components stay available to the caller, as in Go;
    - methods that read or write the provider, the file system, the
      vehicle or the clock are computations in a state monad over [Sys]. *)

From Stdlib Require Import List ZArith String Bool Lia.
From Stdlib Require Import Strings.Byte.
From Stdlib Require Import DecimalString.
Import ListNotations.

Set Implicit Arguments.

(** ** Go slices and errors *)

Definition slice (A : Type) : Type := option (list A).

Definition len {A : Type} (s : slice A) : nat :=
  match s with
  | None => 0
  | Some l => List.length l
  end.

(** Elements of a slice, the way [range] or a reader sees them. *)
Definition elems {A : Type} (s : slice A) : list A :=
  match s with
  | None => []
  | Some l => l
  end.

(** [append(s, x)]: appending to a nil slice allocates. *)
Definition append {A : Type} (s : slice A) (x : A) : slice A :=
  Some (elems s ++ [x]).

(** Errors: the ones the provider builds itself keep their shape; the
    ones handed over by a collaborator (os, the vehicle, yaml,
    ParseProxy) are opaque messages. *)
Inductive error : Type :=
| errors_New (msg : string)
| Errorf_Proxy (idx : nat) (cause : error)
| Foreign (origin : string) (msg : string).

Definition ErrNoProxiesField : error :=
  errors_New "File must have a `proxies` field"%string.

Definition ErrNoValidProxy : error :=
  errors_New "File doesn't have any valid proxy"%string.

Definition ErrNeedOneProxy : error :=
  errors_New "Provider need one proxy at least"%string.

(** [bytes.Equal]. *)
Fixpoint bytes_Equal (a b : list byte) : bool :=
  match a, b with
  | [], [] => true
  | x :: a', y :: b' => Byte.eqb x y && bytes_Equal a' b'
  | _, _ => false
  end.

(** ** Provider kinds *)

(** The constant [Proxy] is written [Proxy_]: [Proxy] names the type
    [C.Proxy] below. *)
Inductive ProviderType : Type := Proxy_ | Rule.

Definition ProviderType_String (pt : ProviderType) : string :=
  match pt with
  | Proxy_ => "Proxy"%string
  | Rule => "Rule"%string
  end.

Inductive VehicleType : Type := File | HTTP | Compatible.

Module Provider.

Section WithCollaborators.

(** The collaborators the provider file imports and does not define. *)

(** [C.Proxy] and the [map[string]interface{}] of one entry. *)
Variable Proxy : Type.
Variable Mapping : Type.

(** [md5.Sum], as a function to the 16 bytes of the digest. *)
Variable md5_Sum : list byte -> list byte.

(** [ProxySchema]: the [proxies] field is nil when the document has no
    such field. *)
Record ProxySchema : Type := { Proxies : slice Mapping }.

(** [yaml.Unmarshal(buf, schema)] into a fresh schema: the error, or
    the schema it filled. *)
Variable yaml_Unmarshal : list byte -> error + ProxySchema.

(** [outbound.ParseProxy(mapping)]. *)
Variable ParseProxy : Mapping -> error + Proxy.

(** ** parse *)

(** The [for idx, mapping := range schema.Proxies] loop of [parse]:
    [inl] is the early return from inside the loop, [inr] the value of
    [proxies] when the loop ends. *)
Fixpoint parse_loop (idx : nat) (mappings : list Mapping)
    (proxies : slice Proxy) : error + slice Proxy :=
  match mappings with
  | [] => inr proxies
  | mapping :: rest =>
      match ParseProxy mapping with
      | inl err => inl (Errorf_Proxy idx err)
      | inr proxy => parse_loop (S idx) rest (append proxies proxy)
      end
  end.

Definition parse (buf : list byte) : slice Proxy * option error :=
  match yaml_Unmarshal buf with
  | inl err => (None, Some err)
  | inr schema =>
      match Proxies schema with
      | None => (None, Some ErrNoProxiesField)
      | Some mappings =>
          match parse_loop 0 mappings (Some []) with
          | inl err => (None, Some err)
          | inr proxies =>
              if Nat.eqb (len proxies) 0
              then (None, Some ErrNoValidProxy)
              else (proxies, None)
          end
      end
  end.

(** ** The provider and the world around it *)

(** Modelled from the spec: [HealthCheck] is declared outside the given
    sources; the spec gives it a probe interval, [autoMode] =
    (probeInterval > 0), and a target list that [setProxy] replaces
    wholesale. *)
Record HealthCheck : Type := {
  hc_interval : Z;
  hc_proxies : slice Proxy
}.

Definition hc_auto (hc : HealthCheck) : bool := (0 <? hc_interval hc)%Z.

Definition hc_setProxy (ps : slice Proxy) (hc : HealthCheck) : HealthCheck :=
  {| hc_interval := hc_interval hc; hc_proxies := ps |}.

(** The pure part of a [Vehicle]; its [Read] is an effect on the world. *)
Record Vehicle : Type := {
  v_Path : string;
  v_Type : VehicleType
}.

Record ProxySetProvider : Type := {
  name : string;
  vehicle : Vehicle;
  hash : list byte;
  proxies : slice Proxy;
  healthCheck : HealthCheck;
  ticker : bool;            (* [pp.ticker != nil] *)
  updatedAt : option Z      (* [*time.Time], nil until first set *)
}.

(** The file at [vehicle.Path()]. *)
Record FileEntry : Type := {
  f_data : list byte;
  f_modTime : Z
}.

(** What the operating system, the vehicle and the clock answer.
    - [cache] is the file [os.Stat] finds at the cache path, if any;
    - [readfile_fault], when set, makes [ioutil.ReadFile] fail with the
      bytes read so far and the error;
    - [writefile_fault], when set, makes [ioutil.WriteFile] fail;
    - [remote k] is the answer of the [k]-th call of [vehicle.Read()];
    - [now k] is the answer of the [k]-th call of [time.Now()]. *)
Record World : Type := {
  cache : option FileEntry;
  readfile_fault : option (list byte * error);
  writefile_fault : option error;
  remote : nat -> list byte * option error;
  fetched : nat;
  now : nat -> Z;
  ticks : nat
}.

(** Goroutines started with [go]. *)
Inductive Task : Type := hc_check | hc_process | pullLoop.

(** The effects of a run, in program order. *)
Inductive Event : Type :=
| EvStat (found : bool)
| EvReadFile (buf : list byte) (err : option error)
| EvRead (buf : list byte) (err : option error)
| EvParse (buf : list byte)
| EvWriteFile (buf : list byte) (err : option error)
| EvUpdatedAt (t : Z)
| EvHash (h : list byte)
| EvProxies (ps : slice Proxy)
| EvSetProxy (ps : slice Proxy)
| EvGo (t : Task).

Record Sys : Type := {
  pp : ProxySetProvider;
  world : World;
  trace : list Event
}.

(** ** Go methods as computations over [Sys]

    A method body is a computation that either runs on with a value
    ([inr]) or has executed a [return] ([inl]), which skips the rest
    of the body. *)

Definition Go (R A : Type) : Type := Sys -> (R + A) * Sys.

Definition ret {R A : Type} (a : A) : Go R A := fun s => (inr a, s).

Definition Return {R A : Type} (r : R) : Go R A := fun s => (inl r, s).

Definition bind {R A B : Type} (c : Go R A) (k : A -> Go R B) : Go R B :=
  fun s =>
    match c s with
    | (inl r, s') => (inl r, s')
    | (inr a, s') => k a s'
    end.

(** Calling a method: its [return] value, or the value its body ends
    with, and the state it leaves. *)
Definition call {R : Type} (body : Go R R) (s : Sys) : R * Sys :=
  match body s with
  | (inl r, s') => (r, s')
  | (inr r, s') => (r, s')
  end.

Notation "x <- c ;; k" := (bind c (fun x => k))
  (at level 61, c at next level, right associativity).
Notation "' pat <- c ;; k" := (bind c (fun x => match x with pat => k end))
  (at level 61, pat pattern, c at next level, right associativity).
Notation "c ;; k" := (bind c (fun _ => k))
  (at level 61, right associativity).

(** [if err != nil { return err }]. *)
Definition check (err : option error) : Go (option error) unit :=
  match err with
  | Some e => Return (Some e)
  | None => ret tt
  end.

(** [if cond { body }]. *)
Definition when {R : Type} (cond : bool) (body : Go R unit) : Go R unit :=
  if cond then body else ret tt.

Definition emit {R : Type} (e : Event) : Go R unit :=
  fun s => (inr tt, {| pp := pp s; world := world s; trace := trace s ++ [e] |}).

Definition get {R : Type} : Go R Sys := fun s => (inr s, s).

Definition put_pp {R : Type} (p : ProxySetProvider) : Go R unit :=
  fun s => (inr tt, {| pp := p; world := world s; trace := trace s |}).

Definition put_world {R : Type} (w : World) : Go R unit :=
  fun s => (inr tt, {| pp := pp s; world := w; trace := trace s |}).

(** *** The world's answers *)

Definition with_cache (c : option FileEntry) (w : World) : World :=
  {| cache := c; readfile_fault := readfile_fault w;
     writefile_fault := writefile_fault w; remote := remote w;
     fetched := fetched w; now := now w; ticks := ticks w |}.

Definition with_fetched (n : nat) (w : World) : World :=
  {| cache := cache w; readfile_fault := readfile_fault w;
     writefile_fault := writefile_fault w; remote := remote w;
     fetched := n; now := now w; ticks := ticks w |}.

Definition with_ticks (n : nat) (w : World) : World :=
  {| cache := cache w; readfile_fault := readfile_fault w;
     writefile_fault := writefile_fault w; remote := remote w;
     fetched := fetched w; now := now w; ticks := n |}.

Definition ErrNotExist : error := Foreign "os" "file does not exist".

(** [os.Stat(pp.vehicle.Path())]: the file's [ModTime] and the error. *)
Definition os_Stat {R : Type} : Go R (Z * option error) :=
  s <- get ;;
  match cache (world s) with
  | Some f => emit (EvStat true) ;; ret (f_modTime f, None)
  | None => emit (EvStat false) ;; ret (0%Z, Some ErrNotExist)
  end.

(** [ioutil.ReadFile(pp.vehicle.Path())]. *)
Definition ioutil_ReadFile {R : Type} : Go R (list byte * option error) :=
  s <- get ;;
  let r :=
    match readfile_fault (world s), cache (world s) with
    | Some (partial, e), _ => (partial, Some e)
    | None, Some f => (f_data f, None)
    | None, None => ([], Some ErrNotExist)
    end in
  emit (EvReadFile (fst r) (snd r)) ;;
  ret r.

(** [pp.vehicle.Read()]. *)
Definition vehicle_Read {R : Type} : Go R (list byte * option error) :=
  s <- get ;;
  let w := world s in
  let r := remote w (fetched w) in
  put_world (with_fetched (S (fetched w)) w) ;;
  emit (EvRead (fst r) (snd r)) ;;
  ret r.

(** [ioutil.WriteFile(pp.vehicle.Path(), buf, fileMode)]: a write that
    succeeds leaves exactly [buf] in the file. *)
Definition ioutil_WriteFile {R : Type} (buf : list byte) : Go R (option error) :=
  s <- get ;;
  let w := world s in
  match writefile_fault w with
  | Some e => emit (EvWriteFile buf (Some e)) ;; ret (Some e)
  | None =>
      put_world
        (with_cache (Some {| f_data := buf; f_modTime := now w (ticks w) |}) w) ;;
      emit (EvWriteFile buf None) ;;
      ret None
  end.

(** [time.Now()]. *)
Definition time_Now {R : Type} : Go R Z :=
  s <- get ;;
  let w := world s in
  put_world (with_ticks (S (ticks w)) w) ;;
  ret (now w (ticks w)).

(** [go f()]. *)
Definition go {R : Type} (t : Task) : Go R unit := emit (EvGo t).

(** *** Assignments to the provider's fields *)

Definition with_hash (h : list byte) (p : ProxySetProvider) : ProxySetProvider :=
  {| name := name p; vehicle := vehicle p; hash := h; proxies := proxies p;
     healthCheck := healthCheck p; ticker := ticker p;
     updatedAt := updatedAt p |}.

Definition with_proxies (ps : slice Proxy) (p : ProxySetProvider) : ProxySetProvider :=
  {| name := name p; vehicle := vehicle p; hash := hash p; proxies := ps;
     healthCheck := healthCheck p; ticker := ticker p;
     updatedAt := updatedAt p |}.

Definition with_healthCheck (hc : HealthCheck) (p : ProxySetProvider) : ProxySetProvider :=
  {| name := name p; vehicle := vehicle p; hash := hash p; proxies := proxies p;
     healthCheck := hc; ticker := ticker p; updatedAt := updatedAt p |}.

Definition with_updatedAt (t : option Z) (p : ProxySetProvider) : ProxySetProvider :=
  {| name := name p; vehicle := vehicle p; hash := hash p; proxies := proxies p;
     healthCheck := healthCheck p; ticker := ticker p; updatedAt := t |}.

Definition set_hash {R : Type} (h : list byte) : Go R unit :=
  s <- get ;; put_pp (with_hash h (pp s)) ;; emit (EvHash h).

Definition set_updatedAt {R : Type} (t : Z) : Go R unit :=
  s <- get ;; put_pp (with_updatedAt (Some t) (pp s)) ;; emit (EvUpdatedAt t).

(** ** The methods of [ProxySetProvider] *)

Definition Name (p : ProxySetProvider) : string := name p.

Definition ProxySetProvider_Type (p : ProxySetProvider) : ProviderType := Proxy_.

Definition VehicleType_of (p : ProxySetProvider) : VehicleType :=
  v_Type (vehicle p).

Definition ProxySetProvider_Proxies (p : ProxySetProvider) : slice Proxy :=
  proxies p.

Definition Reload : Go (option error) (option error) := Return None.

(** [pp.parse(buf)] as a call made by [Initial] and [pull]. *)
Definition pp_parse {R : Type} (buf : list byte)
  : Go R (slice Proxy * option error) :=
  emit (EvParse buf) ;; ret (parse buf).

Definition setProxies {R : Type} (ps : slice Proxy) : Go R unit :=
  s <- get ;;
  put_pp (with_proxies ps (pp s)) ;;
  emit (EvProxies ps) ;;
  s <- get ;;
  put_pp (with_healthCheck (hc_setProxy ps (healthCheck (pp s))) (pp s)) ;;
  emit (EvSetProxy ps) ;;
  go hc_check.

Definition Initial_body : Go (option error) (option error) :=
  (* var buf []byte; var err error *)
  let err : option error := None in
  ' (stat, err') <- os_Stat ;;
  buf <-
    match err' with
    | None =>
        (* the [err] assigned here is the one of the if statement *)
        ' (buf, err') <- ioutil_ReadFile ;;
        set_updatedAt stat ;;
        ret buf
    | Some _ =>
        ' (buf, err') <- vehicle_Read ;;
        ret buf
    end ;;
  check err ;;
  ' (proxies, err) <- pp_parse buf ;;
  ' (buf, err) <-
    match err with
    | Some _ =>
        (* parse local file error, fallback to remote *)
        ' (buf, err) <- vehicle_Read ;;
        check err ;;
        ret (buf, err)
    | None => ret (buf, err)
    end ;;
  werr <- ioutil_WriteFile buf ;;
  check werr ;;
  set_hash (md5_Sum buf) ;;
  setProxies proxies ;;
  (* pull proxies automatically *)
  s <- get ;;
  when (ticker (pp s)) (go pullLoop) ;;
  Return None.

Definition Initial : Sys -> option error * Sys := call Initial_body.

Definition pull_body : Go (option error) (option error) :=
  ' (buf, err) <- vehicle_Read ;;
  check err ;;
  now <- time_Now ;;
  let hash' := md5_Sum buf in
  s <- get ;;
  when (bytes_Equal (hash (pp s)) hash')
    (set_updatedAt now ;; Return None) ;;
  ' (proxies, err) <- pp_parse buf ;;
  check err ;;
  werr <- ioutil_WriteFile buf ;;
  check werr ;;
  set_updatedAt now ;;
  set_hash hash' ;;
  setProxies proxies ;;
  Return None.

Definition pull : Sys -> option error * Sys := call pull_body.

Definition Update : Sys -> option error * Sys := pull.

(** [NewProxySetProvider]: the provider, and the goroutines started. *)
Definition NewProxySetProvider (name : string) (interval : Z)
    (vehicle : Vehicle) (hc : HealthCheck) : ProxySetProvider * list Task :=
  let ticker := negb (interval =? 0)%Z in
  ({| name := name; vehicle := vehicle;
      hash := repeat "000"%byte 16;
      proxies := Some [];
      healthCheck := hc;
      ticker := ticker;
      updatedAt := None |},
   if hc_auto hc then [hc_process] else []).

(** ** Vocabulary for statements about [Initial] and [pull] *)

(** Every mapping of [ms] is accepted by [ParseProxy], giving the
    proxies [ps] in the same order. *)
Definition accepted (ms : list Mapping) (ps : list Proxy) : Prop :=
  Forall2 (fun m p => ParseProxy m = inr p) ms ps.

(** The documents [parse] refuses once they are unmarshalled, with the
    error each one earns: no [proxies] field, an empty list, or an
    entry at index [length good] that [ParseProxy] rejects after the
    entries [good] before it were accepted. *)
Inductive bad_document (buf : list byte) : error -> Prop :=
| no_proxies_field :
    yaml_Unmarshal buf = inr {| Proxies := None |} ->
    bad_document buf ErrNoProxiesField
| no_entries :
    yaml_Unmarshal buf = inr {| Proxies := Some [] |} ->
    bad_document buf ErrNoValidProxy
| bad_entry (good : list Mapping) (ps : list Proxy) (m : Mapping)
    (e : error) (rest : list Mapping) :
    yaml_Unmarshal buf = inr {| Proxies := Some (good ++ m :: rest) |} ->
    accepted good ps ->
    ParseProxy m = inl e ->
    bad_document buf (Errorf_Proxy (List.length good) e).

(** The published state of a provider: what [Proxies()] returns, the
    content hash and the time of the last update. *)
Definition published (p : ProxySetProvider)
  : slice Proxy * list byte * option Z :=
  (proxies p, hash p, updatedAt p).

(** The buffer the first read step of [Initial] leaves in [buf]: the
    bytes of [ioutil.ReadFile] when [os.Stat] finds the cache file, the
    bytes of [vehicle.Read()] otherwise, in both cases whether or not
    the read reported an error. *)
Definition first_buf (w : World) : list byte :=
  match cache w with
  | Some f =>
      match readfile_fault w with
      | Some (partial, _) => partial
      | None => f_data f
      end
  | None => fst (remote w (fetched w))
  end.

(** The error the first read step reports. *)
Definition first_err (w : World) : option error :=
  match cache w with
  | Some f =>
      match readfile_fault w with
      | Some (_, e) => Some e
      | None => None
      end
  | None => snd (remote w (fetched w))
  end.

(** The number of the [vehicle.Read()] call that the fallback of
    [Initial] makes. *)
Definition fallback_index (w : World) : nat :=
  match cache w with
  | Some _ => fetched w
  | None => S (fetched w)
  end.

(** The bytes in the cache file. *)
Definition cached (w : World) : option (list byte) :=
  match cache w with
  | Some f => Some (f_data f)
  | None => None
  end.

(** ** [CompatibleProvider] *)

Record CompatibleProvider : Type := {
  cp_name : string;
  cp_healthCheck : HealthCheck;
  cp_proxies : slice Proxy
}.

(** A method of [*CompatibleProvider]: the error it returns and the
    receiver it leaves. *)
Definition Method : Type := CompatibleProvider -> option error * CompatibleProvider.

Definition Compatible_Reload : Method := fun cp => (None, cp).

Definition Compatible_Update : Method := fun cp => (None, cp).

Definition Compatible_Initial : Method := fun cp => (None, cp).

Definition Compatible_VehicleType (cp : CompatibleProvider) : VehicleType :=
  Compatible.

Definition Compatible_Type (cp : CompatibleProvider) : ProviderType := Proxy_.

Definition Compatible_Proxies (cp : CompatibleProvider) : slice Proxy :=
  cp_proxies cp.

(** [NewCompatibleProvider]: the pointer (nil is [None]), the error,
    and the goroutines started. *)
Definition NewCompatibleProvider (name : string) (proxies : slice Proxy)
    (hc : HealthCheck)
  : option CompatibleProvider * option error * list Task :=
  if Nat.eqb (len proxies) 0
  then (None, Some ErrNeedOneProxy, [])
  else (Some {| cp_name := name; cp_proxies := proxies; cp_healthCheck := hc |},
        None,
        if hc_auto hc then [hc_process] else []).

(** ** The refresh loop *)

(** [pullLoop]: one iteration per tick received from [pp.ticker.C]; a
    pull that fails is reported with [log.Warnln], under the provider's
    name, and the loop goes on. A run over [n] ticks gives the warnings
    in the order they were logged and the state it leaves. *)
Fixpoint pullLoop_run (n : nat) (s : Sys) : list (string * error) * Sys :=
  match n with
  | 0 => ([], s)
  | S n' =>
      let (err, s1) := pull s in
      let (warnings, s2) := pullLoop_run n' s1 in
      (match err with
       | Some e => (Name (pp s1), e) :: warnings
       | None => warnings
       end, s2)
  end.

(** ** Invariants of a provider in its world *)

(** The stored hash is the digest of the bytes in the cache file. *)
Definition cache_in_sync (s : Sys) : Prop :=
  exists b, cached (world s) = Some b /\ hash (pp s) = md5_Sum b.

(** The health check probes exactly the published list. *)
Definition targets_published (s : Sys) : Prop :=
  hc_proxies (healthCheck (pp s)) = proxies (pp s).

(** The published list has at least one proxy. *)
Definition fleet_nonempty (s : Sys) : Prop :=
  0 < len (proxies (pp s)).

End WithCollaborators.

Arguments EvStat {Proxy} found.
Arguments EvReadFile {Proxy} buf err.
Arguments EvRead {Proxy} buf err.
Arguments EvParse {Proxy} buf.
Arguments EvWriteFile {Proxy} buf err.
Arguments EvUpdatedAt {Proxy} t.
Arguments EvHash {Proxy} h.
Arguments EvGo {Proxy} t.

End Provider.


(** ** The vmess adapter: [parseVmessAddr] *)

Module Vmess.

(** [copy(dst, src)]: the first [min(len(dst), len(src))] bytes of
    [dst] are overwritten. *)
Definition copy (dst src : list byte) : list byte :=
  firstn (List.length dst) src ++ skipn (List.length src) dst.

(** [make([]byte, n)]. *)
Definition make (n : nat) : list byte := repeat "000"%byte n.

(** [byte(n)] for an [int]: the low eight bits. *)
Definition byte_of_int (n : Z) : byte :=
  match Byte.of_N (Z.to_N (n mod 256)) with
  | Some b => b
  | None => "000"%byte
  end.

(** [uint(n)] for an [int] on a 64-bit platform. *)
Definition uint_of_int (n : Z) : Z := (n mod 2 ^ 64)%Z.

Section WithConstants.

(** Constants of the packages [constant] and [vmess], and the library
    functions [net.IP.To4], [net.IP.To16] and [strconv.Atoi], none of
    which the adapter's file defines. *)
Variables C_AtypIPv4 C_AtypDomainName C_AtypIPv6 : Z.
Variable C_UDP : Z.
Variables vmess_AtypIPv4 vmess_AtypDomainName vmess_AtypIPv6 : byte.
Variables IP_To4 IP_To16 : list byte -> list byte.
Variable strconv_Atoi : string -> Z * option error.

Record Metadata : Type := {
  NetWork : Z;
  AddrType : Z;
  DstIP : list byte;
  DstPort : string;
  Host : string
}.

Record DstAddr : Type := {
  UDP : bool;
  dst_AddrType : byte;
  Addr : slice byte;
  Port : Z
}.

Definition parseVmessAddr (metadata : Metadata) : DstAddr :=
  (* var addrType byte; var addr []byte *)
  let '(addrType, addr) :=
    if (AddrType metadata =? C_AtypIPv4)%Z then
      (vmess_AtypIPv4, Some (copy (make 4) (IP_To4 (DstIP metadata))))
    else if (AddrType metadata =? C_AtypIPv6)%Z then
      (vmess_AtypIPv6, Some (copy (make 16) (IP_To16 (DstIP metadata))))
    else if (AddrType metadata =? C_AtypDomainName)%Z then
      let host := list_byte_of_string (Host metadata) in
      (vmess_AtypDomainName,
       Some (byte_of_int (Z.of_nat (List.length host))
               :: copy (make (List.length host)) host))
    else ("000"%byte, None) in
  let '(port, _) := strconv_Atoi (DstPort metadata) in
  {| UDP := (NetWork metadata =? C_UDP)%Z;
     dst_AddrType := addrType;
     Addr := addr;
     Port := uint_of_int port |}.

(** *** [NewVmess] *)

(** [uint16(n)] for an [int]. *)
Definition uint16_of_int (n : Z) : Z := (n mod 2 ^ 16)%Z.

(** Types and functions of other packages: [map[string]string], the
    TLS session cache and [getClientSessionCache()], [*vmess.Client],
    [C.AdapterType] and [C.Vmess], [strings.ToLower], [strconv.Itoa]
    and [net.JoinHostPort]. *)
Variable Headers : Type.
Variable SessionCache : Type.
Variable getClientSessionCache : SessionCache.
Variable Client : Type.
Variable AdapterType : Type.
Variable C_Vmess : AdapterType.
Variable strings_ToLower : string -> string.
Variable strconv_Itoa : Z -> string.
Variable net_JoinHostPort : string -> string -> string.

Record VmessOption : Type := {
  o_Name : string;
  o_Server : string;
  o_Port : Z;
  o_UUID : string;
  o_AlterID : Z;
  o_Cipher : string;
  o_TLS : bool;
  o_UDP : bool;
  o_Network : string;
  o_WSPath : string;
  o_WSHeaders : Headers;
  o_SkipCertVerify : bool
}.

(** [vmess.Config]. *)
Record Config : Type := {
  c_UUID : string;
  c_AlterID : Z;
  c_Security : string;
  c_TLS : bool;
  c_HostName : string;
  c_Port : string;
  c_NetWork : string;
  c_WebSocketPath : string;
  c_WebSocketHeaders : Headers;
  c_SkipCertVerify : bool;
  c_SessionCache : SessionCache
}.

(** [vmess.NewClient]. *)
Variable vmess_NewClient : Config -> Client * option error.

Record Base : Type := {
  b_name : string;
  b_tp : AdapterType;
  b_udp : bool
}.

Record Vmess : Type := {
  v_Base : Base;
  v_server : string;
  v_client : Client
}.

(** [NewVmess]: the pointer (nil is [None]) and the error. *)
Definition NewVmess (opt : VmessOption) : option Vmess * option error :=
  let security := strings_ToLower (o_Cipher opt) in
  let '(client, err) :=
    vmess_NewClient
      {| c_UUID := o_UUID opt;
         c_AlterID := uint16_of_int (o_AlterID opt);
         c_Security := security;
         c_TLS := o_TLS opt;
         c_HostName := o_Server opt;
         c_Port := strconv_Itoa (o_Port opt);
         c_NetWork := o_Network opt;
         c_WebSocketPath := o_WSPath opt;
         c_WebSocketHeaders := o_WSHeaders opt;
         c_SkipCertVerify := o_SkipCertVerify opt;
         c_SessionCache := getClientSessionCache |} in
  match err with
  | Some e => (None, Some e)
  | None =>
      (Some {| v_Base := {| b_name := o_Name opt; b_tp := C_Vmess;
                            b_udp := true |};
               v_server :=
                 net_JoinHostPort (o_Server opt) (strconv_Itoa (o_Port opt));
               v_client := client |},
       None)
  end.

(** The option [opt] with another [udp], or another [alterId]. *)
Definition with_o_UDP (b : bool) (opt : VmessOption) : VmessOption :=
  {| o_Name := o_Name opt; o_Server := o_Server opt; o_Port := o_Port opt;
     o_UUID := o_UUID opt; o_AlterID := o_AlterID opt;
     o_Cipher := o_Cipher opt; o_TLS := o_TLS opt; o_UDP := b;
     o_Network := o_Network opt; o_WSPath := o_WSPath opt;
     o_WSHeaders := o_WSHeaders opt;
     o_SkipCertVerify := o_SkipCertVerify opt |}.

Definition with_o_AlterID (a : Z) (opt : VmessOption) : VmessOption :=
  {| o_Name := o_Name opt; o_Server := o_Server opt; o_Port := o_Port opt;
     o_UUID := o_UUID opt; o_AlterID := a;
     o_Cipher := o_Cipher opt; o_TLS := o_TLS opt; o_UDP := o_UDP opt;
     o_Network := o_Network opt; o_WSPath := o_WSPath opt;
     o_WSHeaders := o_WSHeaders opt;
     o_SkipCertVerify := o_SkipCertVerify opt |}.

(** *** [DialContext] and [DialUDP] *)

(** [net.Conn], [C.Conn], [C.PacketConn] and [net.Addr]; the methods
    [Resolved] and [UDPAddr] of [C.Metadata]; [newConn] and
    [newPacketConn] of the package. *)
Variable Conn : Type.
Variable CConn : Type.
Variable PacketConn : Type.
Variable NetAddr : Type.
Variable Metadata_Resolved : Metadata -> bool.
Variable Metadata_UDPAddr : Metadata -> NetAddr.
Variable newConn : Conn -> Vmess -> CConn.

Record vmessPacketConn : Type := {
  pc_Conn : Conn;
  rAddr : NetAddr
}.

Variable newPacketConn : vmessPacketConn -> Vmess -> PacketConn.

(** What the network answers: [resolver.ResolveIP(host)],
    [dialer.DialContext(ctx, network, address)] and
    [client.New(conn, dst)]. *)
Variable resolver_ResolveIP : string -> list byte * option error.
Variable dialer_DialContext : string -> string -> Conn * option error.
Variable client_New : Client -> Conn -> DstAddr -> Conn * option error.

(** The calls a dial makes, in program order. *)
Inductive DialEvent : Type :=
| DResolve (host : string)
| DDial (network address : string)
| DKeepAlive
| DClientNew (dst : DstAddr).

(** [metadata.DstIP = ip]. *)
Definition with_DstIP (ip : list byte) (m : Metadata) : Metadata :=
  {| NetWork := NetWork m; AddrType := AddrType m; DstIP := ip;
     DstPort := DstPort m; Host := Host m |}.

(** [err.Error()] for the errors of this development. *)
Fixpoint error_Error (e : error) : string :=
  match e with
  | errors_New msg => msg
  | Errorf_Proxy idx cause =>
      "Proxy " ++ NilZero.string_of_uint (Nat.to_uint idx) ++ " error: "
      ++ error_Error cause
  | Foreign _ msg => msg
  end.

(** [fmt.Errorf("%s connect error", v.server)]. *)
Definition ErrConnect (v : Vmess) : error :=
  errors_New (v_server v ++ " connect error").

Definition ErrResolve : error := errors_New "can't resolve ip".

(** [fmt.Errorf("new vmess client error: %v", err)]. *)
Definition ErrClient (err : error) : error :=
  errors_New ("new vmess client error: " ++ error_Error err).

(** [DialContext]: the connection (nil is [None]), the error, and the
    calls made. *)
Definition DialContext (v : Vmess) (metadata : Metadata)
  : option CConn * option error * list DialEvent :=
  let '(c, err) := dialer_DialContext "tcp" (v_server v) in
  match err with
  | Some _ => (None, Some (ErrConnect v), [DDial "tcp" (v_server v)])
  | None =>
      let dst := parseVmessAddr metadata in
      let '(c, err) := client_New (v_client v) c dst in
      (Some (newConn c v), err,
       [DDial "tcp" (v_server v); DKeepAlive; DClientNew dst])
  end.

(** [DialUDP]: the packet connection, the error, the metadata the
    caller's pointer refers to after the call, and the calls made. *)
Definition DialUDP (v : Vmess) (metadata : Metadata)
  : option PacketConn * option error * Metadata * list DialEvent :=
  (* vmess use stream-oriented udp, so clash needs a net.UDPAddr *)
  let resolved :=
    if negb (Metadata_Resolved metadata) then
      let '(ip, err) := resolver_ResolveIP (Host metadata) in
      match err with
      | Some _ => inl [DResolve (Host metadata)]
      | None => inr (with_DstIP ip metadata, [DResolve (Host metadata)])
      end
    else inr (metadata, []) in
  match resolved with
  | inl calls => (None, Some ErrResolve, metadata, calls)
  | inr (metadata, calls) =>
      let '(c, err) := dialer_DialContext "tcp" (v_server v) in
      match err with
      | Some _ =>
          (None, Some (ErrConnect v), metadata,
           calls ++ [DDial "tcp" (v_server v)])
      | None =>
          let dst := parseVmessAddr metadata in
          let '(c, err) := client_New (v_client v) c dst in
          let calls :=
            calls ++ [DDial "tcp" (v_server v); DKeepAlive; DClientNew dst] in
          match err with
          | Some e => (None, Some (ErrClient e), metadata, calls)
          | None =>
              (Some (newPacketConn
                       {| pc_Conn := c; rAddr := Metadata_UDPAddr metadata |} v),
               None, metadata, calls)
          end
      end
  end.

End WithConstants.

End Vmess.

(** ** A small instance of the collaborators

    Used to run the model on concrete inputs. A document is a list of
    bytes: the empty document has no [proxies] field, a document that
    starts with byte 255 is not well-formed, any other document lists
    one entry per byte after the first; [ParseProxy] rejects the entry
    0 and turns any other byte into the proxy of that number. The
    digest is taken injective. *)
Module Sample.

Definition Proxy : Type := nat.
Definition Mapping : Type := byte.

Definition md5_Sum (buf : list byte) : list byte := "001"%byte :: buf.

Definition yaml_Unmarshal (buf : list byte)
  : error + Provider.ProxySchema Mapping :=
  match buf with
  | [] => inr {| Provider.Proxies := None |}
  | "255"%byte :: _ => inl (Foreign "yaml" "unmarshal errors")
  | _ :: entries => inr {| Provider.Proxies := Some entries |}
  end.

Definition ParseProxy (m : Mapping) : error + Proxy :=
  match m with
  | "000"%byte => inl (Foreign "outbound" "Unsupport proxy type")
  | _ => inr (Byte.to_nat m)
  end.

Definition parse := Provider.parse yaml_Unmarshal ParseProxy.
Definition Initial := Provider.Initial md5_Sum yaml_Unmarshal ParseProxy.
Definition pull := Provider.pull md5_Sum yaml_Unmarshal ParseProxy.

Definition hc0 : Provider.HealthCheck Proxy :=
  {| Provider.hc_interval := 0; Provider.hc_proxies := None |}.

Definition vehicle0 : Provider.Vehicle :=
  {| Provider.v_Path := "proxies.yaml"; Provider.v_Type := HTTP |}.

(** A provider fresh from [NewProxySetProvider], without a ticker. *)
Definition pp0 : Provider.ProxySetProvider Proxy :=
  fst (Provider.NewProxySetProvider "p" 0 vehicle0 hc0).

(** A well-formed document with entries 1 and 2, another with entry 3,
    a document without the [proxies] field, and one whose second entry
    is invalid. *)
Definition doc12 : list byte := ["112"; "001"; "002"]%byte.
Definition doc3 : list byte := ["112"; "003"]%byte.
Definition doc_nofield : list byte := [].
Definition doc_bad2 : list byte := ["112"; "001"; "000"; "002"]%byte.

Definition served (answers : list (list byte * option error))
  : nat -> list byte * option error :=
  fun k => nth k answers ([], Some (Foreign "vehicle" "unreachable")).

Definition clock0 : nat -> Z := fun k => (1000 + Z.of_nat k)%Z.

Definition unreachable : error := Foreign "vehicle" "unreachable".
Definition read_only : error := Foreign "os" "permission denied".
Definition unsupported : error := Foreign "outbound" "Unsupport proxy type".

(** A world whose cache file, when there is one, holds [file], whose
    cache path is writable unless [wfault] is set, and whose vehicle
    gives [answers] one after the other. *)
Definition world_of (file : option (list byte)) (wfault : option error)
    (answers : list (list byte * option error)) : Provider.World :=
  {| Provider.cache :=
       option_map
         (fun d => {| Provider.f_data := d; Provider.f_modTime := 7 |}) file;
     Provider.readfile_fault := None;
     Provider.writefile_fault := wfault;
     Provider.remote := served answers;
     Provider.fetched := 0;
     Provider.now := clock0;
     Provider.ticks := 0 |}.

Definition sys_of (p : Provider.ProxySetProvider Proxy) (w : Provider.World)
  : Provider.Sys Proxy :=
  {| Provider.pp := p; Provider.world := w; Provider.trace := [] |}.

(** A provider that publishes the entries of [doc12]. *)
Definition pp_running : Provider.ProxySetProvider Proxy :=
  {| Provider.name := "p";
     Provider.vehicle := vehicle0;
     Provider.hash := md5_Sum doc12;
     Provider.proxies := Some [1; 2];
     Provider.healthCheck :=
       {| Provider.hc_interval := 0; Provider.hc_proxies := Some [1; 2] |};
     Provider.ticker := false;
     Provider.updatedAt := Some 7%Z |}.

(** The cache file holds a document without [proxies]; the vehicle
    serves [doc12]; the cache path is writable. *)
Definition corrupt_cache_sys : Provider.Sys Proxy :=
  sys_of pp0 (world_of (Some doc_nofield) None [(doc12, None)]).

(** No cache file; the vehicle first serves a document without
    [proxies], then [doc12]. *)
Definition no_cache_sys : Provider.Sys Proxy :=
  sys_of pp0 (world_of None None [(doc_nofield, None); (doc12, None)]).

(** No cache file; the first fetch fails, the second serves [doc12]. *)
Definition flaky_sys : Provider.Sys Proxy :=
  sys_of pp0 (world_of None None [([], Some unreachable); (doc12, None)]).

(** The cache file holds a document whose second entry is invalid; the
    vehicle serves [doc12]. *)
Definition bad_entry_sys : Provider.Sys Proxy :=
  sys_of pp0 (world_of (Some doc_bad2) None [(doc12, None)]).

(** The same cache file, and a vehicle that cannot be reached. *)
Definition bad_entry_offline_sys : Provider.Sys Proxy :=
  sys_of pp0 (world_of (Some doc_bad2) None []).

(** A running provider whose vehicle now serves the document with the
    invalid entry. *)
Definition bad_update_sys : Provider.Sys Proxy :=
  sys_of pp_running (world_of (Some doc12) None [(doc_bad2, None)]).

(** A running provider whose vehicle now serves [doc3], while the cache
    path cannot be written. *)
Definition read_only_sys : Provider.Sys Proxy :=
  sys_of pp_running (world_of (Some doc12) (Some read_only) [(doc3, None)]).

(** A fresh provider whose vehicle serves [doc12], then [doc3]. *)
Definition two_updates_sys : Provider.Sys Proxy :=
  sys_of pp0 (world_of None None [(doc12, None); (doc3, None)]).

(** A running provider whose vehicle keeps serving [doc12]. *)
Definition steady_sys : Provider.Sys Proxy :=
  sys_of pp_running (world_of (Some doc12) None [(doc12, None); (doc12, None)]).

(** A fresh provider with a valid cache file and no network. *)
Definition cache_hit_sys : Provider.Sys Proxy :=
  sys_of pp0 (world_of (Some doc12) None []).

(** The same, when the cache path cannot be written. *)
Definition read_only_start_sys : Provider.Sys Proxy :=
  sys_of pp0 (world_of (Some doc12) (Some read_only) []).

(** A fresh provider with a valid cache file, whose vehicle serves the
    same document. *)
Definition cache_then_same_sys : Provider.Sys Proxy :=
  sys_of pp0 (world_of (Some doc12) None [(doc12, None)]).

(** A fresh provider whose vehicle serves [doc12] twice. *)
Definition same_twice_sys : Provider.Sys Proxy :=
  sys_of pp0 (world_of None None [(doc12, None); (doc12, None)]).


Definition pullLoop_run :=
  Provider.pullLoop_run md5_Sum yaml_Unmarshal ParseProxy.

(** The address kinds of package [constant] (1, 3 and 4, as in SOCKS5)
    and of package [vmess] (1, 2 and 3), [C.UDP] as 1, [To4] and [To16]
    defined on addresses of four and of sixteen bytes only, and an
    [Atoi] that reads every port as 443. *)
Definition To4 (ip : list byte) : list byte :=
  if Nat.eqb (List.length ip) 4 then ip else [].

Definition To16 (ip : list byte) : list byte :=
  if Nat.eqb (List.length ip) 16 then ip else [].

Definition parseVmessAddr : Vmess.Metadata -> Vmess.DstAddr :=
  Vmess.parseVmessAddr 1 3 4 1 "001"%byte "002"%byte "003"%byte
    To4 To16 (fun _ => (443%Z, None)).

Definition metadata_of (kind : Z) (ip : list byte) (host : string)
  : Vmess.Metadata :=
  {| Vmess.NetWork := 0; Vmess.AddrType := kind; Vmess.DstIP := ip;
     Vmess.DstPort := "443"; Vmess.Host := host |}.

(** A host name of 300 bytes. *)
Definition long_host : string :=
  string_of_list_byte (repeat "a"%byte 300).

End Sample.

(** * Facts about byte buffers *)

Lemma bytes_Equal_spec (a b : list byte) :
  bytes_Equal a b = true <-> a = b.
Proof.
  revert b; induction a as [|x a IH]; intros [|y b]; simpl;
    try (split; [discriminate | congruence]); try tauto.
  rewrite andb_true_iff, IH. split.
  - intros [Hxy ->]. now rewrite (Byte.byte_dec_bl _ _ Hxy).
  - intros [= -> ->]. split; [now apply Byte.byte_dec_lb | reflexivity].
Qed.

Lemma bytes_Equal_refl (a : list byte) : bytes_Equal a a = true.
Proof. now apply bytes_Equal_spec. Qed.

Lemma bytes_Equal_neq (a b : list byte) :
  a <> b -> bytes_Equal a b = false.
Proof.
  intros Hne. destruct (bytes_Equal a b) eqn:E; [|reflexivity].
  now apply bytes_Equal_spec in E.
Qed.


(** * Facts about [parse] *)

Import Provider.

Section ParseFacts.

Context {Proxy Mapping : Type}.
Variable yaml_Unmarshal : list byte -> error + ProxySchema Mapping.
Variable ParseProxy : Mapping -> error + Proxy.

Local Abbreviation parse_loop := (Provider.parse_loop ParseProxy).
Local Abbreviation parse := (Provider.parse yaml_Unmarshal ParseProxy).
Local Abbreviation accepted := (Provider.accepted ParseProxy).

Lemma parse_loop_accepted (ms : list Mapping) :
  forall idx acc ps,
    accepted ms ps ->
    parse_loop idx ms (Some acc) = inr (Some (acc ++ ps)).
Proof.
  induction ms as [|m ms IH]; intros idx acc ps Hall; inversion Hall; subst.
  - simpl. now rewrite app_nil_r.
  - simpl. rewrite H1. unfold append; simpl.
    rewrite (IH (S idx) (acc ++ [y]) l' H3), <- app_assoc. reflexivity.
Qed.

Lemma parse_loop_rejected (good : list Mapping) :
  forall idx acc ps m e rest,
    accepted good ps ->
    ParseProxy m = inl e ->
    parse_loop idx (good ++ m :: rest) (Some acc)
    = inl (Errorf_Proxy (idx + List.length good) e).
Proof.
  induction good as [|g good IH]; intros idx acc ps m e rest Hall Hm;
    inversion Hall; subst; simpl.
  - rewrite Hm, Nat.add_0_r. reflexivity.
  - rewrite H1. unfold append; simpl.
    rewrite (IH (S idx) _ l' m e rest H3 Hm).
    now rewrite Nat.add_succ_r.
Qed.

Lemma parse_loop_inr (ms : list Mapping) :
  forall idx acc r,
    parse_loop idx ms (Some acc) = inr r ->
    exists ps, accepted ms ps /\ r = Some (acc ++ ps).
Proof.
  induction ms as [|m ms IH]; intros idx acc r H; simpl in H.
  - injection H as <-. exists []. split; [constructor | now rewrite app_nil_r].
  - destruct (ParseProxy m) as [e|p] eqn:Hm; [discriminate|].
    apply IH in H. destruct H as (ps & Hall & ->).
    exists (p :: ps). split; [now constructor|].
    simpl. now rewrite <- app_assoc.
Qed.

Lemma parse_loop_inl (ms : list Mapping) :
  forall idx acc err,
    parse_loop idx ms (Some acc) = inl err ->
    exists good ps m e rest,
      ms = good ++ m :: rest /\ accepted good ps /\
      ParseProxy m = inl e /\ err = Errorf_Proxy (idx + List.length good) e.
Proof.
  induction ms as [|m ms IH]; intros idx acc err H; simpl in H; [discriminate|].
  destruct (ParseProxy m) as [e|p] eqn:Hm.
  - injection H as <-. exists [], [], m, e, ms.
    repeat split; [constructor | assumption | now rewrite Nat.add_0_r].
  - apply IH in H. destruct H as (good & ps & m' & e & rest & -> & Hall & Hm' & ->).
    exists (m :: good), (p :: ps), m', e, rest.
    repeat split; [now constructor | assumption |].
    simpl. now rewrite Nat.add_succ_r.
Qed.

(** [parse] returns either an error and the nil slice, or no error and
    a non-empty list: the accepted entries of the document, in order. *)
Lemma parse_cases (buf : list byte) :
  (exists e, parse buf = (None, Some e)) \/
  (exists ms p ps,
      yaml_Unmarshal buf = inr {| Proxies := Some ms |} /\
      accepted ms (p :: ps) /\
      parse buf = (Some (p :: ps), None)).
Proof.
  unfold Provider.parse.
  destruct (yaml_Unmarshal buf) as [e|[[ms|]]] eqn:Hy; simpl.
  - left; eauto.
  - destruct (parse_loop 0 ms (Some [])) as [e|r] eqn:Hl.
    + left; eauto.
    + apply parse_loop_inr in Hl. destruct Hl as (ps & Hall & ->).
      simpl. destruct ps as [|p ps]; simpl.
      * left; eauto.
      * right. exists ms, p, ps. auto.
  - left; eauto.
Qed.

Lemma parse_error_nil (buf : list byte) (ps : slice Proxy) (e : error) :
  parse buf = (ps, Some e) -> ps = None.
Proof.
  destruct (parse_cases buf) as [(e' & H)|(ms & p & l & _ & _ & H)];
    rewrite H; congruence.
Qed.

Lemma parse_ok_nonempty (buf : list byte) (ps : slice Proxy) :
  parse buf = (ps, None) -> exists p l, ps = Some (p :: l).
Proof.
  destruct (parse_cases buf) as [(e' & H)|(ms & p & l & _ & _ & H)];
    rewrite H; [discriminate|].
  intros [= <-]. eauto.
Qed.

End ParseFacts.

(** * Facts about [Initial] and [pull] *)

Ltac go_unfold :=
  unfold Provider.Initial, Provider.pull, call, Initial_body, pull_body,
    os_Stat, ioutil_ReadFile, vehicle_Read, ioutil_WriteFile, time_Now,
    set_hash, set_updatedAt, setProxies, pp_parse, go, check, when, emit,
    get, put_pp, put_world, bind, ret, Return.

(** Open a system state into its fields. *)
Ltac open_sys s :=
  destruct s as [p [c rf wf rem n clk tk] tr]; cbn in *.

(** When the first buffer of [Initial] comes from [vehicle.Read()], name
    the answer of that call. *)
Ltac first_read_cases rem n Hp :=
  try match type of Hp with
      | context [fst (rem n)] =>
          let b0 := fresh "b0" in
          let oe0 := fresh "oe0" in
          destruct (rem n) as [b0 oe0] eqn:Hr0; cbn in Hp
      end.

(** Right-nest the appends of a trace. *)
Ltac flat_trace := repeat rewrite <- app_assoc; cbn [app].

Section InitialFacts.

Context {Proxy Mapping : Type}.
Variable md5_Sum : list byte -> list byte.
Variable yaml_Unmarshal : list byte -> error + ProxySchema Mapping.
Variable ParseProxy : Mapping -> error + Proxy.

Local Abbreviation parse := (Provider.parse yaml_Unmarshal ParseProxy).
Local Abbreviation Initial := (Provider.Initial md5_Sum yaml_Unmarshal ParseProxy).

(** C1. When the bytes of the cache file fail to parse, [Initial]
    fetches fresh bytes [b] with [vehicle.Read()], rewrites the cache
    with them and stores their digest, but it never parses [b]: the
    list it publishes is the nil result of the failed parse of the
    cache, whatever [b] holds, and [Initial] returns success. *)
Theorem Initial_fallback_skips_reparse
    (s : Sys Proxy) (f : FileEntry) (e0 : error) (b : list byte) :
  cache (world s) = Some f ->
  readfile_fault (world s) = None ->
  snd (parse (f_data f)) = Some e0 ->
  remote (world s) (fetched (world s)) = (b, None) ->
  writefile_fault (world s) = None ->
  let s' := snd (Initial s) in
  fst (Initial s) = None /\
  proxies (pp s') = None /\
  hc_proxies (healthCheck (pp s')) = None /\
  hash (pp s') = md5_Sum b /\
  cached (world s') = Some b /\
  trace s' =
    trace s ++
    [EvStat true; EvReadFile (f_data f) None; EvUpdatedAt (f_modTime f);
     EvParse (f_data f); EvRead b None; EvWriteFile b None;
     EvHash (md5_Sum b); EvProxies None; EvSetProxy None; EvGo hc_check] ++
    (if ticker (pp s) then [EvGo pullLoop] else []).
Proof.
  open_sys s. intros -> -> Hp Hr ->.
  destruct (parse (f_data f)) as [ps oe] eqn:Hparse. cbn in Hp. subst oe.
  apply parse_error_nil in Hparse as Hnil. subst ps.
  go_unfold. cbn. rewrite Hparse. cbn. rewrite Hr. cbn.
  destruct (ticker p); cbn; flat_trace; repeat split; reflexivity.
Qed.

(** The fallback, whichever way the first buffer was read: the digest
    of the fetched bytes is stored and the nil list is published. *)
Lemma Initial_fallback_run (s : Sys Proxy) (e0 : error) (b : list byte) :
  snd (parse (first_buf (world s))) = Some e0 ->
  remote (world s) (fallback_index (world s)) = (b, None) ->
  writefile_fault (world s) = None ->
  let s' := snd (Initial s) in
  fst (Initial s) = None /\
  proxies (pp s') = None /\
  hash (pp s') = md5_Sum b /\
  cached (world s') = Some b /\
  exists pre,
    trace s' =
      trace s ++ pre ++
      [EvWriteFile b None; EvHash (md5_Sum b); EvProxies None;
       EvSetProxy None; EvGo hc_check] ++
      (if ticker (pp s) then [EvGo pullLoop] else []).
Proof.
  open_sys s. unfold first_buf, fallback_index; cbn.
  intros Hp Hr ->.
  destruct c as [f|]; [destruct rf as [[partial e]|] | idtac]; cbn in *;
    first_read_cases rem n Hp;
    match type of Hp with
    | snd (parse ?buf) = _ =>
        destruct (parse buf) as [ps oe] eqn:Hparse; cbn in Hp; subst oe;
        apply parse_error_nil in Hparse as Hnil; subst ps
    end;
    go_unfold; cbn; try rewrite Hr0; cbn;
    rewrite Hparse; cbn; rewrite Hr; cbn;
    destruct (ticker p); cbn; flat_trace;
    repeat split; try reflexivity;
    first [ eexists [_; _; _; _; _]; reflexivity
          | eexists [_; _; _; _]; reflexivity ].
Qed.

(** When the fallback read fails, [Initial] returns its error and
    leaves the published list, the hash and the cache file alone. *)
Lemma Initial_fallback_read_fails (s : Sys Proxy) (e0 e : error) :
  snd (parse (first_buf (world s))) = Some e0 ->
  snd (remote (world s) (fallback_index (world s))) = Some e ->
  let s' := snd (Initial s) in
  fst (Initial s) = Some e /\
  proxies (pp s') = proxies (pp s) /\
  hash (pp s') = hash (pp s) /\
  healthCheck (pp s') = healthCheck (pp s) /\
  cache (world s') = cache (world s).
Proof.
  open_sys s. unfold first_buf, fallback_index; cbn.
  intros Hp Hr.
  destruct c as [f|]; [destruct rf as [[partial e1]|] | idtac]; cbn in *;
    first_read_cases rem n Hp;
    match type of Hp with
    | snd (parse ?buf) = _ =>
        destruct (parse buf) as [ps oe] eqn:Hparse; cbn in Hp; subst oe
    end;
    go_unfold; cbn; try rewrite Hr0; cbn;
    rewrite Hparse; cbn;
    match type of Hr with
    | snd ?r = _ => destruct r as [b1 oe1]; cbn in Hr; subst oe1
    end;
    cbn; repeat split; reflexivity.
Qed.

(** When the first buffer parses and the cache can be written,
    [Initial] publishes the parsed list, stores the digest of the
    buffer and writes the buffer to the cache. *)
Lemma Initial_parse_ok_run (s : Sys Proxy) (ps : slice Proxy) :
  parse (first_buf (world s)) = (ps, None) ->
  writefile_fault (world s) = None ->
  let s' := snd (Initial s) in
  fst (Initial s) = None /\
  proxies (pp s') = ps /\
  hc_proxies (healthCheck (pp s')) = ps /\
  hash (pp s') = md5_Sum (first_buf (world s)) /\
  cached (world s') = Some (first_buf (world s)).
Proof.
  open_sys s. unfold first_buf; cbn.
  intros Hp ->.
  destruct c as [f|]; [destruct rf as [[partial e1]|] | idtac]; cbn in *;
    first_read_cases rem n Hp;
    go_unfold; cbn; try rewrite Hr0; cbn;
    rewrite Hp; cbn; destruct (ticker p); cbn; repeat split; reflexivity.
Qed.

(** C3. On the fallback path of [Initial] the stored hash changes to
    the digest of the fetched bytes although the list published next
    is the nil list: the hash is updated on a path that publishes no
    parsed, non-empty list. *)
Theorem Initial_fallback_hash_without_fleet
    (s : Sys Proxy) (e0 : error) (b : list byte) :
  snd (parse (first_buf (world s))) = Some e0 ->
  remote (world s) (fallback_index (world s)) = (b, None) ->
  writefile_fault (world s) = None ->
  md5_Sum b <> hash (pp s) ->
  let s' := snd (Initial s) in
  fst (Initial s) = None /\
  hash (pp s') <> hash (pp s) /\
  hash (pp s') = md5_Sum b /\
  len (ProxySetProvider_Proxies (pp s')) = 0 /\
  exists pre post,
    trace s' =
      trace s ++ pre ++ [EvHash (md5_Sum b); EvProxies None] ++ post.
Proof.
  intros Hp Hr Hw Hne.
  destruct (Initial_fallback_run s Hp Hr Hw) as (Hret & Hps & Hh & _ & pre & Ht).
  cbn zeta. unfold ProxySetProvider_Proxies.
  rewrite Hret, Hps, Hh. repeat split; try assumption.
  exists (pre ++ [EvWriteFile b None]).
  eexists. rewrite Ht. flat_trace. reflexivity.
Qed.

(** C10. [Initial] never returns the error of its first read: after
    the first read step, failed or not, the next thing it does is to
    parse the buffer that step left; and when [Initial] returns an
    error, the error is that of the fallback [vehicle.Read()] or that
    of [ioutil.WriteFile]. *)
Theorem Initial_first_read_error_shadowed (s : Sys Proxy) :
  let w := world s in
  let s' := snd (Initial s) in
  (exists rest,
     trace s' =
       trace s ++
       match cache w with
       | Some f =>
           [EvStat true; EvReadFile (first_buf w) (first_err w);
            EvUpdatedAt (f_modTime f)]
       | None => [EvStat false; EvRead (first_buf w) (first_err w)]
       end ++
       EvParse (first_buf w) :: rest) /\
  (forall e : error,
     fst (Initial s) = Some e ->
     (snd (parse (first_buf w)) <> None /\
      snd (remote w (fallback_index w)) = Some e) \/
     (writefile_fault w = Some e)).
Proof.
  open_sys s. unfold first_buf, first_err, fallback_index; cbn.
  destruct c as [f|]; [destruct rf as [[partial e1]|] | idtac];
    cbn; go_unfold; cbn;
    try match goal with
    | |- context [fst (rem n)] => destruct (rem n) as [b0 oe0] eqn:Hr0; cbn
    end;
    match goal with
    | |- context [parse ?buf] => destruct (parse buf) as [ps [e0|]] eqn:Hparse
    end; cbn;
    try match goal with
    | |- context [rem ?k] => destruct (rem k) as [b1 [e2|]] eqn:Hr1
    end; cbn;
    destruct wf as [ew|]; cbn;
    try destruct (ticker p); cbn; flat_trace;
    (split;
     [ eexists; reflexivity
     | intros e He; cbn in He; try discriminate; injection He as <-;
       first [ right; reflexivity
             | left; split; [discriminate | reflexivity] ] ]).
Qed.

End InitialFacts.

Section PullFacts.

Context {Proxy Mapping : Type}.
Variable md5_Sum : list byte -> list byte.
Variable yaml_Unmarshal : list byte -> error + ProxySchema Mapping.
Variable ParseProxy : Mapping -> error + Proxy.

Local Abbreviation parse := (Provider.parse yaml_Unmarshal ParseProxy).
Local Abbreviation accepted := (Provider.accepted ParseProxy).
Local Abbreviation bad_document := (Provider.bad_document yaml_Unmarshal ParseProxy).
Local Abbreviation Initial := (Provider.Initial md5_Sum yaml_Unmarshal ParseProxy).
Local Abbreviation pull := (Provider.pull md5_Sum yaml_Unmarshal ParseProxy).

Lemma bad_document_parse (buf : list byte) (e : error) :
  bad_document buf e -> parse buf = (None, Some e).
Proof.
  intros [Hy | Hy | good ps m e' rest Hy Hacc Hm]; unfold Provider.parse;
    rewrite Hy; cbn; try reflexivity.
  now rewrite (@parse_loop_rejected _ _ ParseProxy good 0 [] ps m e' rest Hacc Hm).
Qed.

(** The state a [pull] leaves when the fetched bytes have the stored
    digest. *)
Lemma pull_unchanged_run (s : Sys Proxy) (b : list byte) :
  remote (world s) (fetched (world s)) = (b, None) ->
  md5_Sum b = hash (pp s) ->
  pull s =
    (None,
     {| pp := with_updatedAt (Some (now (world s) (ticks (world s)))) (pp s);
        world := with_ticks (S (ticks (world s)))
                   (with_fetched (S (fetched (world s))) (world s));
        trace := trace s ++
                 [EvRead b None;
                  EvUpdatedAt (now (world s) (ticks (world s)))] |}).
Proof.
  open_sys s. intros Hr Hh.
  go_unfold. cbn. rewrite Hr. cbn.
  rewrite <- Hh, bytes_Equal_refl. cbn. flat_trace. reflexivity.
Qed.

(** The state a [pull] leaves when the fetched bytes have another
    digest, parse, and the cache can be written. *)
Lemma pull_changed_run (s : Sys Proxy) (b : list byte) (ps : slice Proxy) :
  remote (world s) (fetched (world s)) = (b, None) ->
  md5_Sum b <> hash (pp s) ->
  parse b = (ps, None) ->
  writefile_fault (world s) = None ->
  pull s =
    (None,
     {| pp := with_healthCheck (hc_setProxy ps (healthCheck (pp s)))
                (with_proxies ps
                   (with_hash (md5_Sum b)
                      (with_updatedAt
                         (Some (now (world s) (ticks (world s)))) (pp s))));
        world := with_cache
                   (Some {| f_data := b;
                            f_modTime := now (world s) (S (ticks (world s))) |})
                   (with_ticks (S (ticks (world s)))
                      (with_fetched (S (fetched (world s))) (world s)));
        trace := trace s ++
                 [EvRead b None; EvParse b; EvWriteFile b None;
                  EvUpdatedAt (now (world s) (ticks (world s)));
                  EvHash (md5_Sum b); EvProxies ps; EvSetProxy ps;
                  EvGo hc_check] |}).
Proof.
  open_sys s. intros Hr Hh Hp ->.
  go_unfold. cbn. rewrite Hr. cbn.
  rewrite (bytes_Equal_neq (not_eq_sym Hh)). cbn.
  rewrite Hp. cbn. flat_trace. reflexivity.
Qed.

(** Whenever [pull] returns an error, the provider and the cache file
    are what they were. *)
Lemma pull_error_keeps_provider (s : Sys Proxy) (e : error) :
  fst (pull s) = Some e ->
  pp (snd (pull s)) = pp s /\ cache (world (snd (pull s))) = cache (world s).
Proof.
  open_sys s. go_unfold. cbn.
  destruct (rem n) as [b [e1|]]; cbn; [now split|].
  destruct (bytes_Equal (hash p) (md5_Sum b)); cbn; [discriminate|].
  destruct (parse b) as [ps [e2|]]; cbn; [now split|].
  destruct wf as [e3|]; cbn; [now split | discriminate].
Qed.

(** In [pull] the hash only changes together with the publication of
    a parsed, non-empty list, after the bytes it was parsed from were
    written to the cache. *)
Lemma pull_hash_changes_with_fleet (s : Sys Proxy) :
  hash (pp (snd (pull s))) <> hash (pp s) ->
  exists buf p l,
    parse buf = (Some (p :: l), None) /\
    hash (pp (snd (pull s))) = md5_Sum buf /\
    proxies (pp (snd (pull s))) = Some (p :: l) /\
    cached (world (snd (pull s))) = Some buf.
Proof.
  open_sys s. go_unfold. cbn.
  destruct (rem n) as [b [e1|]]; cbn; [congruence|].
  destruct (bytes_Equal (hash p) (md5_Sum b)); cbn; [congruence|].
  destruct (parse b) as [ps [e2|]] eqn:Hp; cbn; [congruence|].
  destruct wf as [e3|]; cbn; [congruence|].
  intros _. destruct (parse_ok_nonempty _ _ _ Hp) as (q & l & ->).
  exists b, q, l. auto.
Qed.

(** A failed fetch, or a failed parse of bytes of another digest, is
    what [pull] returns. *)
Lemma pull_returns_failure (s : Sys Proxy) (e : error) :
  snd (remote (world s) (fetched (world s))) = Some e \/
  (snd (remote (world s) (fetched (world s))) = None /\
   md5_Sum (fst (remote (world s) (fetched (world s)))) <> hash (pp s) /\
   snd (parse (fst (remote (world s) (fetched (world s))))) = Some e) ->
  fst (pull s) = Some e.
Proof.
  open_sys s. intros H. go_unfold. cbn.
  destruct (rem n) as [b oe]; cbn in *.
  destruct H as [-> | (-> & Hh & Hp)]; cbn; [reflexivity|].
  rewrite (bytes_Equal_neq (not_eq_sym Hh)). cbn.
  destruct (parse b) as [ps oe]; cbn in *. subst oe. reflexivity.
Qed.

(** C5. A [pull] whose fetch fails, or whose fetched bytes (of a digest
    other than the stored one) fail to parse, returns that error, and
    the published proxies, hash and update time, the health check's
    targets and the cache file are what they were before the call. *)
Theorem pull_failure_keeps_state (s : Sys Proxy) (e : error) :
  let w := world s in
  snd (remote w (fetched w)) = Some e \/
  (snd (remote w (fetched w)) = None /\
   md5_Sum (fst (remote w (fetched w))) <> hash (pp s) /\
   snd (parse (fst (remote w (fetched w)))) = Some e) ->
  let s' := snd (pull s) in
  fst (pull s) = Some e /\
  published (pp s') = published (pp s) /\
  ProxySetProvider_Proxies (pp s') = ProxySetProvider_Proxies (pp s) /\
  healthCheck (pp s') = healthCheck (pp s) /\
  cache (world s') = cache (world s).
Proof.
  cbn zeta. intros H.
  pose proof (pull_returns_failure s H) as Hret.
  destruct (pull_error_keeps_provider s Hret) as [Hpp Hc].
  unfold published, ProxySetProvider_Proxies.
  rewrite Hpp. repeat split; assumption.
Qed.

(** C7. Two [pull]s in a row while the vehicle serves bytes whose digest
    is the stored hash: both return success, each sets [updatedAt] to
    the time of its call, the published proxies, the hash, the health
    check's targets and the cache file stay what they were, and the
    only effects are the two reads and the two time stamps: nothing is
    parsed, written or published. *)
Theorem pull_unchanged_idempotent (s : Sys Proxy) (b : list byte) :
  let w := world s in
  remote w (fetched w) = (b, None) ->
  remote w (S (fetched w)) = (b, None) ->
  md5_Sum b = hash (pp s) ->
  let s1 := snd (pull s) in
  let s2 := snd (pull s1) in
  fst (pull s) = None /\ fst (pull s1) = None /\
  updatedAt (pp s1) = Some (now w (ticks w)) /\
  updatedAt (pp s2) = Some (now w (S (ticks w))) /\
  proxies (pp s1) = proxies (pp s) /\ proxies (pp s2) = proxies (pp s) /\
  hash (pp s1) = hash (pp s) /\ hash (pp s2) = hash (pp s) /\
  healthCheck (pp s2) = healthCheck (pp s) /\
  cache (world s2) = cache (world s) /\
  trace s2 =
    trace s ++
    [EvRead b None; EvUpdatedAt (now w (ticks w));
     EvRead b None; EvUpdatedAt (now w (S (ticks w)))].
Proof.
  cbn zeta. intros H1 H2 Hh.
  rewrite (pull_unchanged_run s H1 Hh). cbn [fst snd].
  rewrite pull_unchanged_run with (b := b); [|exact H2|exact Hh].
  cbn. flat_trace. repeat split; reflexivity.
Qed.

(** A list that [parse] returns holds the accepted entries of the
    document, one per mapping, in the order of the document. *)
Lemma parse_ok_entries (buf : list byte) (ps : slice Proxy) :
  parse buf = (ps, None) ->
  exists ms l,
    yaml_Unmarshal buf = inr {| Proxies := Some ms |} /\
    accepted ms l /\ ps = Some l /\ l <> [].
Proof.
  destruct (parse_cases yaml_Unmarshal ParseProxy buf)
    as [(e & H)|(ms & p & l & Hy & Hacc & H)]; rewrite H; [discriminate|].
  intros [= <-]. exists ms, (p :: l). repeat split; try assumption.
  discriminate.
Qed.

(** C6, as amended. When the cache can be written: a [pull] that
    fetches bytes [B2] of a digest other than the stored one, which
    parse, writes exactly [B2] to the cache, then stores the digest of
    [B2], then publishes the entries of [B2] in document order; and
    after two [pull]s that fetch [B1] then [B2], both valid and of
    different digests, the published proxies are those of [B2], the
    hash is the digest of [B2] and the cache file holds [B2]. *)
Theorem pull_change_detection
    (s : Sys Proxy) (B1 B2 : list byte) (ps1 ps2 : slice Proxy) :
  let w := world s in
  writefile_fault w = None ->
  parse B2 = (ps2, None) ->
  (remote w (fetched w) = (B2, None) ->
   md5_Sum B2 <> hash (pp s) ->
   let s' := snd (pull s) in
   fst (pull s) = None /\
   trace s' =
     trace s ++
     [EvRead B2 None; EvParse B2; EvWriteFile B2 None;
      EvUpdatedAt (now w (ticks w)); EvHash (md5_Sum B2);
      EvProxies ps2; EvSetProxy ps2; EvGo hc_check] /\
   proxies (pp s') = ps2 /\
   hash (pp s') = md5_Sum B2 /\
   cached (world s') = Some B2 /\
   exists ms l,
     yaml_Unmarshal B2 = inr {| Proxies := Some ms |} /\
     accepted ms l /\ ps2 = Some l /\ l <> []) /\
  (remote w (fetched w) = (B1, None) ->
   remote w (S (fetched w)) = (B2, None) ->
   parse B1 = (ps1, None) ->
   md5_Sum B1 <> md5_Sum B2 ->
   let s1 := snd (pull s) in
   let s2 := snd (pull s1) in
   fst (pull s) = None /\ fst (pull s1) = None /\
   proxies (pp s2) = ps2 /\
   hash (pp s2) = md5_Sum B2 /\
   cached (world s2) = Some B2).
Proof.
  cbn zeta. intros Hw Hp2. split.
  - intros Hr Hh. rewrite (pull_changed_run s Hr Hh Hp2 Hw). cbn.
    repeat split. now apply parse_ok_entries.
  - intros Hr1 Hr2 Hp1 Hd.
    assert (Hfirst :
      exists s1, pull s = (None, s1) /\ hash (pp s1) = md5_Sum B1 /\
                 remote (world s1) (fetched (world s1)) = (B2, None) /\
                 writefile_fault (world s1) = None).
    { destruct (bytes_Equal (md5_Sum B1) (hash (pp s))) eqn:E.
      - apply bytes_Equal_spec in E.
        rewrite (pull_unchanged_run s Hr1 E). eexists; split; [reflexivity|].
        cbn. auto.
      - assert (Hne : md5_Sum B1 <> hash (pp s)).
        { intros Heq. apply bytes_Equal_spec in Heq. congruence. }
        rewrite (pull_changed_run s Hr1 Hne Hp1 Hw).
        eexists; split; [reflexivity|]. cbn. auto. }
    destruct Hfirst as (s1 & E1 & Hh1 & Hr1' & Hw1).
    rewrite E1. cbn [fst snd].
    assert (Hne2 : md5_Sum B2 <> hash (pp s1)) by (rewrite Hh1; congruence).
    rewrite (pull_changed_run s1 Hr1' Hne2 Hp2 Hw1). cbn.
    repeat split.
Qed.

(** C4, as amended. A document without the [proxies] field, with an
    empty list, or with an entry that [ParseProxy] rejects makes
    [parse] return its error and the nil slice, never a partial list.
    A [pull] that parses such a document returns that error and leaves
    the provider and the cache file exactly as they were. [Initial],
    when its first buffer is such a document, falls back to
    [vehicle.Read()]; when that read fails it returns the read's error
    with the published proxies, the hash, the health check and the
    cache file as they were. *)
Theorem bad_document_all_or_nothing (buf : list byte) (e : error) :
  bad_document buf e ->
  parse buf = (None, Some e) /\
  (forall s : Sys Proxy,
     remote (world s) (fetched (world s)) = (buf, None) ->
     md5_Sum buf <> hash (pp s) ->
     fst (pull s) = Some e /\
     pp (snd (pull s)) = pp s /\
     published (pp (snd (pull s))) = published (pp s) /\
     cache (world (snd (pull s))) = cache (world s)) /\
  (forall (s : Sys Proxy) (e' : error),
     first_buf (world s) = buf ->
     snd (remote (world s) (fallback_index (world s))) = Some e' ->
     fst (Initial s) = Some e' /\
     proxies (pp (snd (Initial s))) = proxies (pp s) /\
     hash (pp (snd (Initial s))) = hash (pp s) /\
     healthCheck (pp (snd (Initial s))) = healthCheck (pp s) /\
     cache (world (snd (Initial s))) = cache (world s)).
Proof.
  intros Hbad. pose proof (bad_document_parse Hbad) as Hp.
  split; [exact Hp|]. split.
  - intros s Hr Hh.
    assert (Hret : fst (pull s) = Some e).
    { apply pull_returns_failure. right. rewrite Hr. cbn. rewrite Hp. auto. }
    destruct (pull_error_keeps_provider s Hret) as [Hpp Hc].
    unfold published. rewrite Hpp. auto.
  - intros s e' Hb Hr.
    apply (Initial_fallback_read_fails md5_Sum yaml_Unmarshal ParseProxy s (e0 := e));
      [rewrite Hb, Hp; reflexivity | exact Hr].
Qed.

End PullFacts.

(** * Facts about [CompatibleProvider] *)

Section CompatibleFacts.

Context {Proxy : Type}.

(** C8. [NewCompatibleProvider] on a list without elements, nil or
    empty, returns the nil provider and an error; on a list with
    elements it returns a provider holding that list and no error, and
    on that provider [Initial], [Reload] and [Update] each return the
    nil error and leave the provider, its proxies included, as it
    was. *)
Theorem NewCompatibleProvider_spec
    (name : string) (hc : HealthCheck Proxy) :
  fst (NewCompatibleProvider name None hc) = (None, Some ErrNeedOneProxy) /\
  fst (NewCompatibleProvider name (Some []) hc) = (None, Some ErrNeedOneProxy) /\
  forall (p : Proxy) (l : list Proxy),
  exists cp : CompatibleProvider Proxy,
    fst (NewCompatibleProvider name (Some (p :: l)) hc) = (Some cp, None) /\
    Compatible_Proxies cp = Some (p :: l) /\
    Compatible_Initial cp = (None, cp) /\
    Compatible_Reload cp = (None, cp) /\
    Compatible_Update cp = (None, cp) /\
    Compatible_Proxies (snd (Compatible_Initial cp)) = Some (p :: l) /\
    Compatible_Proxies (snd (Compatible_Reload cp)) = Some (p :: l) /\
    Compatible_Proxies (snd (Compatible_Update cp)) = Some (p :: l).
Proof.
  unfold NewCompatibleProvider. cbn.
  split; [reflexivity|]. split; [reflexivity|].
  intros p l. eexists. repeat split.
Qed.

End CompatibleFacts.

(** * Facts about [parseVmessAddr] *)

Section VmessFacts.

Variables C_AtypIPv4 C_AtypDomainName C_AtypIPv6 : Z.
Variable C_UDP : Z.
Variables vmess_AtypIPv4 vmess_AtypDomainName vmess_AtypIPv6 : byte.
Variables IP_To4 IP_To16 : list byte -> list byte.
Variable strconv_Atoi : string -> Z * option error.

Local Abbreviation parseVmessAddr :=
  (Vmess.parseVmessAddr C_AtypIPv4 C_AtypDomainName C_AtypIPv6 C_UDP
     vmess_AtypIPv4 vmess_AtypDomainName vmess_AtypIPv6
     IP_To4 IP_To16 strconv_Atoi).

(** C9. For a [Metadata] whose [AddrType] is none of the IPv4, IPv6 and
    domain-name kinds, [parseVmessAddr] returns (it has no error
    result) a [DstAddr] whose [AddrType] is the zero byte and whose
    [Addr] is the nil slice. *)
Theorem parseVmessAddr_unknown_kind (metadata : Vmess.Metadata) :
  Vmess.AddrType metadata <> C_AtypIPv4 ->
  Vmess.AddrType metadata <> C_AtypIPv6 ->
  Vmess.AddrType metadata <> C_AtypDomainName ->
  Vmess.dst_AddrType (parseVmessAddr metadata) = "000"%byte /\
  Vmess.Addr (parseVmessAddr metadata) = None /\
  len (Vmess.Addr (parseVmessAddr metadata)) = 0.
Proof.
  intros H4 H6 Hd. unfold Vmess.parseVmessAddr.
  apply Z.eqb_neq in H4, H6, Hd. rewrite H4, H6, Hd.
  destruct (strconv_Atoi (Vmess.DstPort metadata)) as [port err].
  cbn. auto.
Qed.

End VmessFacts.

(** * Concrete runs *)

Section Runs.

Local Abbreviation md5 := Sample.md5_Sum.
Local Abbreviation yaml := Sample.yaml_Unmarshal.
Local Abbreviation entry := Sample.ParseProxy.

(** The sample documents parse as intended. *)
Example Sample_parse_runs :
  Sample.parse Sample.doc12 = (Some [1; 2], None) /\
  Sample.parse Sample.doc3 = (Some [3], None) /\
  Sample.parse Sample.doc_nofield = (None, Some ErrNoProxiesField) /\
  Sample.parse ["112"%byte] = (None, Some ErrNoValidProxy) /\
  Sample.parse Sample.doc_bad2
  = (None, Some (Errorf_Proxy 1 Sample.unsupported)).
Proof. repeat split. Qed.

(** A first fetch that fails does not stop [Initial]: the empty buffer
    goes to [parse], the fallback fetch succeeds, and [Initial] returns
    the nil error. *)
Example Initial_swallows_first_read_error :
  first_err (world Sample.flaky_sys) = Some Sample.unreachable /\
  fst (Sample.Initial Sample.flaky_sys) = None /\
  trace (snd (Sample.Initial Sample.flaky_sys)) =
    [EvStat false; EvRead [] (Some Sample.unreachable); EvParse [];
     EvRead Sample.doc12 None; EvWriteFile Sample.doc12 None;
     EvHash (md5 Sample.doc12); EvProxies None;
     EvSetProxy None; EvGo hc_check].
Proof. repeat split. Qed.

(** The cache file has no [proxies] field and the vehicle serves
    [doc12]: [Initial] succeeds and publishes the nil list although
    [doc12] parses to two proxies. *)
Lemma Initial_fallback_skips_reparse_witness :
  Sample.parse Sample.doc12 = (Some [1; 2], None) /\
  fst (Sample.Initial Sample.corrupt_cache_sys) = None /\
  proxies (pp (snd (Sample.Initial Sample.corrupt_cache_sys))) = None /\
  hash (pp (snd (Sample.Initial Sample.corrupt_cache_sys)))
  = md5 Sample.doc12 /\
  cached (world (snd (Sample.Initial Sample.corrupt_cache_sys)))
  = Some Sample.doc12.
Proof.
  split; [reflexivity|].
  pose proof
    (@Initial_fallback_skips_reparse _ _ md5 yaml entry
       Sample.corrupt_cache_sys
       {| f_data := Sample.doc_nofield; f_modTime := 7 |}
       ErrNoProxiesField Sample.doc12
       eq_refl eq_refl eq_refl eq_refl eq_refl) as H.
  cbv zeta in H. destruct H as (H1 & H2 & _ & H4 & H5 & _).
  repeat split; assumption.
Defined.

(** C2. A call of [Initial] that returns success and leaves
    [Proxies()] without elements: the cache file has no [proxies]
    field, the vehicle serves the valid document [doc12]. The stored
    hash is the digest of [doc12], whose two entries are not published;
    the published (nil) list is what the failed parse of the cache
    returned. *)
Theorem Initial_success_with_empty_fleet :
  let s' := snd (Sample.Initial Sample.corrupt_cache_sys) in
  fst (Sample.Initial Sample.corrupt_cache_sys) = None /\
  ProxySetProvider_Proxies (pp s') = None /\
  len (ProxySetProvider_Proxies (pp s')) = 0 /\
  hash (pp s') = md5 Sample.doc12 /\
  Sample.parse Sample.doc12 = (Some [1; 2], None) /\
  Sample.parse Sample.doc_nofield = (None, Some ErrNoProxiesField).
Proof. cbv zeta. repeat split. Qed.

(** No cache file, a first fetch without [proxies] field, then
    [doc12]: the hash of the fresh provider changes and nothing is
    published. *)
Lemma Initial_fallback_hash_without_fleet_witness :
  md5 Sample.doc12 <> hash (pp Sample.no_cache_sys) /\
  fst (Sample.Initial Sample.no_cache_sys) = None /\
  hash (pp (snd (Sample.Initial Sample.no_cache_sys)))
  <> hash (pp Sample.no_cache_sys) /\
  len (ProxySetProvider_Proxies (pp (snd (Sample.Initial Sample.no_cache_sys))))
  = 0.
Proof.
  assert (Hne : md5 Sample.doc12 <> hash (pp Sample.no_cache_sys))
    by (vm_compute; intros E; discriminate E).
  split; [exact Hne|].
  pose proof
    (@Initial_fallback_hash_without_fleet _ _ md5 yaml entry
       Sample.no_cache_sys ErrNoProxiesField Sample.doc12
       eq_refl eq_refl eq_refl Hne) as H.
  cbv zeta in H. destruct H as (H1 & H2 & _ & H4 & _).
  repeat split; assumption.
Defined.

(** C4, the claim as stated fails for [Initial]: the cache file holds a
    document whose entry 1 is invalid, the vehicle serves a valid
    document; [Initial] returns success and the hash and the update
    time are not what they were. *)
Lemma Initial_bad_entry_changes_state :
  let s := Sample.bad_entry_sys in
  let s' := snd (Sample.Initial s) in
  first_buf (world s) = Sample.doc_bad2 /\
  Sample.parse Sample.doc_bad2
  = (None, Some (Errorf_Proxy 1 Sample.unsupported)) /\
  fst (Sample.Initial s) = None /\
  hash (pp s) = repeat "000"%byte 16 /\
  hash (pp s') = md5 Sample.doc12 /\
  updatedAt (pp s) = None /\
  updatedAt (pp s') = Some 7%Z /\
  published (pp s') <> published (pp s).
Proof.
  cbv zeta. repeat split.
  vm_compute. intros H. discriminate H.
Qed.

(** The document whose entry 1 is invalid: refused by [parse], by a
    [pull] of a running provider, and by an [Initial] whose vehicle
    cannot be reached. *)
Lemma bad_document_all_or_nothing_witness :
  Provider.bad_document yaml entry Sample.doc_bad2
    (Errorf_Proxy 1 Sample.unsupported) /\
  Sample.parse Sample.doc_bad2
  = (None, Some (Errorf_Proxy 1 Sample.unsupported)) /\
  (fst (Sample.pull Sample.bad_update_sys)
   = Some (Errorf_Proxy 1 Sample.unsupported) /\
   pp (snd (Sample.pull Sample.bad_update_sys)) = pp Sample.bad_update_sys) /\
  (fst (Sample.Initial Sample.bad_entry_offline_sys)
   = Some Sample.unreachable /\
   proxies (pp (snd (Sample.Initial Sample.bad_entry_offline_sys)))
   = proxies (pp Sample.bad_entry_offline_sys) /\
   hash (pp (snd (Sample.Initial Sample.bad_entry_offline_sys)))
   = hash (pp Sample.bad_entry_offline_sys)).
Proof.
  assert (Hbad : Provider.bad_document yaml entry Sample.doc_bad2
                   (Errorf_Proxy 1 Sample.unsupported)).
  { apply (@bad_entry _ _ yaml entry Sample.doc_bad2
             ["001"%byte] [1] "000"%byte Sample.unsupported ["002"%byte]).
    - reflexivity.
    - repeat constructor.
    - reflexivity. }
  split; [exact Hbad|].
  destruct (@bad_document_all_or_nothing _ _ md5 yaml entry _ _ Hbad)
    as (Hp & Hpull & Hinit).
  split; [exact Hp|]. split.
  - destruct (Hpull Sample.bad_update_sys eq_refl) as (H1 & H2 & _).
    + vm_compute. intros E. discriminate E.
    + split; assumption.
  - destruct (Hinit Sample.bad_entry_offline_sys Sample.unreachable
                eq_refl eq_refl) as (H1 & H2 & H3 & _).
    repeat split; assumption.
Defined.

(** A running provider is served the document with the invalid entry:
    [pull] returns the entry's error and still publishes [doc12]. *)
Lemma pull_failure_keeps_state_witness :
  snd (remote (world Sample.bad_update_sys) 0) = None /\
  md5 Sample.doc_bad2 <> hash (pp Sample.bad_update_sys) /\
  fst (Sample.pull Sample.bad_update_sys)
  = Some (Errorf_Proxy 1 Sample.unsupported) /\
  published (pp (snd (Sample.pull Sample.bad_update_sys)))
  = (Some [1; 2], md5 Sample.doc12, Some 7%Z).
Proof.
  assert (Hne : md5 Sample.doc_bad2 <> hash (pp Sample.bad_update_sys))
    by (vm_compute; intros E; discriminate E).
  split; [reflexivity|]. split; [exact Hne|].
  pose proof
    (@pull_failure_keeps_state _ _ md5 yaml entry Sample.bad_update_sys
       (Errorf_Proxy 1 Sample.unsupported)
       (or_intror (conj eq_refl (conj Hne eq_refl)))) as H.
  cbv zeta in H. destruct H as (H1 & H2 & _).
  split; assumption.
Defined.

(** C6, the claim as stated fails when the cache cannot be written: a
    running provider fetches [doc3], whose digest is not the stored one
    and which parses, but [ioutil.WriteFile] fails; [pull] returns that
    error, nothing is persisted, and the published proxies and the hash
    stay those of [doc12]. *)
Lemma pull_write_failure_publishes_nothing :
  let s := Sample.read_only_sys in
  let s' := snd (Sample.pull s) in
  remote (world s) (fetched (world s)) = (Sample.doc3, None) /\
  bytes_Equal (hash (pp s)) (md5 Sample.doc3) = false /\
  Sample.parse Sample.doc3 = (Some [3], None) /\
  fst (Sample.pull s) = Some Sample.read_only /\
  cached (world s') = Some Sample.doc12 /\
  proxies (pp s') = Some [1; 2] /\
  hash (pp s') = md5 Sample.doc12 /\
  trace s' =
    [EvRead Sample.doc3 None; EvParse Sample.doc3;
     EvWriteFile Sample.doc3 (Some Sample.read_only)].
Proof. cbv zeta. vm_compute. repeat split. Qed.

(** A fresh provider is served [doc12], then [doc3]: after two [pull]s
    it publishes the entry of [doc3]. *)
Lemma pull_change_detection_witness :
  let s := Sample.two_updates_sys in
  let s1 := snd (Sample.pull s) in
  let s2 := snd (Sample.pull s1) in
  Sample.doc12 <> Sample.doc3 /\
  Sample.parse Sample.doc12 = (Some [1; 2], None) /\
  Sample.parse Sample.doc3 = (Some [3], None) /\
  fst (Sample.pull s) = None /\ fst (Sample.pull s1) = None /\
  proxies (pp s2) = Some [3] /\
  hash (pp s2) = md5 Sample.doc3 /\
  cached (world s2) = Some Sample.doc3 /\
  proxies (pp s1) = Some [1; 2] /\
  trace s1 =
    [EvRead Sample.doc12 None; EvParse Sample.doc12;
     EvWriteFile Sample.doc12 None; EvUpdatedAt 1000;
     EvHash (md5 Sample.doc12); EvProxies (Some [1; 2]);
     EvSetProxy (Some [1; 2]); EvGo hc_check].
Proof.
  cbv zeta.
  split; [intros E; discriminate E|].
  split; [reflexivity|]. split; [reflexivity|].
  assert (Hd : md5 Sample.doc12 <> md5 Sample.doc3)
    by (vm_compute; intros E; discriminate E).
  assert (Hh : md5 Sample.doc12 <> hash (pp Sample.two_updates_sys))
    by (vm_compute; intros E; discriminate E).
  destruct
    (@pull_change_detection _ _ md5 yaml entry Sample.two_updates_sys
       Sample.doc12 Sample.doc3 (Some [1; 2]) (Some [3]) eq_refl eq_refl)
    as [_ Htwo].
  destruct
    (@pull_change_detection _ _ md5 yaml entry Sample.two_updates_sys
       Sample.doc12 Sample.doc12 (Some [1; 2]) (Some [1; 2]) eq_refl eq_refl)
    as [Hone _].
  destruct (Htwo eq_refl eq_refl eq_refl Hd) as (H1 & H2 & H3 & H4 & H5).
  destruct (Hone eq_refl Hh) as (_ & Ht & Hps & _).
  repeat split; assumption.
Defined.

(** A running provider is served [doc12] twice. *)
Lemma pull_unchanged_idempotent_witness :
  let s := Sample.steady_sys in
  let s1 := snd (Sample.pull s) in
  let s2 := snd (Sample.pull s1) in
  md5 Sample.doc12 = hash (pp s) /\
  fst (Sample.pull s) = None /\ fst (Sample.pull s1) = None /\
  updatedAt (pp s1) = Some 1000%Z /\
  updatedAt (pp s2) = Some 1001%Z /\
  proxies (pp s2) = Some [1; 2] /\
  hash (pp s2) = md5 Sample.doc12 /\
  trace s2 =
    [EvRead Sample.doc12 None; EvUpdatedAt 1000;
     EvRead Sample.doc12 None; EvUpdatedAt 1001].
Proof.
  cbv zeta. split; [reflexivity|].
  pose proof
    (@pull_unchanged_idempotent _ _ md5 yaml entry Sample.steady_sys
       Sample.doc12 eq_refl eq_refl eq_refl) as H.
  cbv zeta in H.
  destruct H as (H1 & H2 & H3 & H4 & _ & H6 & _ & H8 & _ & _ & H11).
  repeat split; assumption.
Defined.

(** The kinds of package [constant] (1, 3 and 4, as in SOCKS5) and of
    package [vmess] (1, 2 and 3); a metadata of kind 0. *)
Lemma parseVmessAddr_unknown_kind_witness :
  let parseVmessAddr :=
    Vmess.parseVmessAddr 1 3 4 1 "001"%byte "002"%byte "003"%byte
      (fun ip => ip) (fun ip => ip) (fun _ => (443%Z, None)) in
  let metadata :=
    {| Vmess.NetWork := 0; Vmess.AddrType := 0; Vmess.DstIP := [];
       Vmess.DstPort := "443"; Vmess.Host := "example.org" |} in
  Vmess.dst_AddrType (parseVmessAddr metadata) = "000"%byte /\
  Vmess.Addr (parseVmessAddr metadata) = None /\
  Vmess.Port (parseVmessAddr metadata) = 443%Z.
Proof.
  cbv zeta.
  destruct
    (@parseVmessAddr_unknown_kind 1 3 4 1 "001"%byte "002"%byte "003"%byte
       (fun ip => ip) (fun ip => ip) (fun _ => (443%Z, None))
       {| Vmess.NetWork := 0; Vmess.AddrType := 0; Vmess.DstIP := [];
          Vmess.DstPort := "443"; Vmess.Host := "example.org" |})
    as (H1 & H2 & _); try (cbn; lia).
  repeat split; assumption.
Defined.

End Runs.

(** * More about [parse] *)

Section ParseProperties.

Context {Proxy Mapping : Type}.
Variable yaml_Unmarshal : list byte -> error + ProxySchema Mapping.
Variable ParseProxy : Mapping -> error + Proxy.

Local Abbreviation parse_loop := (Provider.parse_loop ParseProxy).
Local Abbreviation parse := (Provider.parse yaml_Unmarshal ParseProxy).
Local Abbreviation accepted := (Provider.accepted ParseProxy).

Lemma accepted_nth (ms : list Mapping) (ps : list Proxy) :
  accepted ms ps ->
  forall k m, nth_error ms k = Some m -> exists p, ParseProxy m = inr p.
Proof.
  induction 1 as [|m0 p0 ms ps Hm _ IH]; intros [|k] m; cbn;
    try discriminate.
  - intros [= <-]. eauto.
  - apply IH.
Qed.

(** X1. [parse] returns a list and no error exactly when the document
    has a [proxies] list with at least one entry all of whose entries
    [ParseProxy] accepts; the list returned holds the proxies of the
    entries, one for one, in document order. *)
Theorem parse_success_iff (buf : list byte) (l : list Proxy) :
  parse buf = (Some l, None) <->
  l <> [] /\
  exists ms,
    yaml_Unmarshal buf = inr {| Proxies := Some ms |} /\
    accepted ms l /\ List.length ms = List.length l.
Proof.
  split.
  - intros H.
    destruct (parse_cases yaml_Unmarshal ParseProxy buf)
      as [(e & He)|(ms & p & ps & Hy & Hacc & Hp)]; [congruence|].
    rewrite Hp in H. injection H as <-.
    split; [discriminate|]. exists ms. repeat split; try assumption.
    exact (Forall2_length Hacc).
  - intros (Hne & ms & Hy & Hacc & _).
    unfold Provider.parse. rewrite Hy. cbn.
    rewrite (parse_loop_accepted (ParseProxy := ParseProxy) 0 [] Hacc). cbn.
    destruct l; [contradiction | reflexivity].
Qed.

(** X2. When [ParseProxy] rejects some entry of the document, [parse]
    returns no list, and the error it returns wraps the index and the
    cause of the first rejected entry: every entry before that index
    is an accepted one. *)
Theorem parse_reports_first_rejected
    (buf : list byte) (ms : list Mapping) (k : nat) (m : Mapping) (e : error) :
  yaml_Unmarshal buf = inr {| Proxies := Some ms |} ->
  nth_error ms k = Some m ->
  ParseProxy m = inl e ->
  exists j m' e',
    j <= k /\
    nth_error ms j = Some m' /\ ParseProxy m' = inl e' /\
    (forall i mi, i < j -> nth_error ms i = Some mi ->
                  exists p, ParseProxy mi = inr p) /\
    parse buf = (None, Some (Errorf_Proxy j e')).
Proof.
  intros Hy Hk Hm. unfold Provider.parse. rewrite Hy. cbn.
  destruct (parse_loop 0 ms (Some [])) as [err|r] eqn:Hl.
  - apply parse_loop_inl in Hl.
    destruct Hl as (good & ps & m' & e' & rest & -> & Hacc & Hm' & ->).
    exists (List.length good), m', e'. cbn.
    assert (Hgood : forall i mi, i < List.length good ->
              nth_error (good ++ m' :: rest) i = Some mi ->
              exists p, ParseProxy mi = inr p).
    { intros i mi Hi Hn. rewrite nth_error_app1 in Hn by exact Hi.
      exact (accepted_nth Hacc _ Hn). }
    repeat split; try assumption.
    + destruct (Nat.le_gt_cases (List.length good) k) as [Hle|Hgt];
        [exact Hle|].
      destruct (Hgood k m Hgt Hk) as (p & Hp). congruence.
    + rewrite nth_error_app2 by apply Nat.le_refl.
      now rewrite Nat.sub_diag.
  - apply parse_loop_inr in Hl. destruct Hl as (ps & Hacc & _).
    destruct (accepted_nth Hacc _ Hk) as (p & Hp). congruence.
Qed.

(** X3. [parse] returns either a list with at least one proxy and no
    error, or an error and the nil slice: never both, never neither. *)
Theorem parse_list_xor_error (buf : list byte) :
  (snd (parse buf) = None <-> 0 < len (fst (parse buf))) /\
  (snd (parse buf) <> None <-> fst (parse buf) = None).
Proof.
  destruct (parse_cases yaml_Unmarshal ParseProxy buf)
    as [(e & He)|(ms & p & ps & _ & _ & Hp)].
  - rewrite He. cbn. repeat split; try discriminate; try reflexivity.
    intros H. inversion H.
  - rewrite Hp. cbn. repeat split; try discriminate; try reflexivity.
    + intros _. apply Nat.lt_0_succ.
    + intros H. now contradiction H.
Qed.

End ParseProperties.

(** * More about [Initial] *)

(** Every path of [Initial], with the answers of the world named:
    [p] the provider, [c] the cache file, [rf] and [wf] the faults of
    [ReadFile] and [WriteFile], [rem] and [n] the vehicle and the
    number of its next read. *)
Ltac Initial_paths p c rf wf rem n :=
  destruct c as [f|]; [destruct rf as [[partial e1]|] | idtac];
  cbn; go_unfold; cbn;
  try match goal with
      | |- context [fst (rem n)] =>
          destruct (rem n) as [b0 oe0] eqn:Hr0; cbn
      end;
  match goal with
  | |- context [Provider.parse ?y ?pr ?buf] =>
      destruct (Provider.parse y pr buf) as [ps [e0|]] eqn:Hparse
  end; cbn;
  try match goal with
      | |- context [rem ?k] => destruct (rem k) as [b1 [e2|]] eqn:Hr1
      end; cbn;
  try (destruct wf as [ew|]; cbn);
  try (destruct (ticker p); cbn).

Section InitialProperties.

Context {Proxy Mapping : Type}.
Variable md5_Sum : list byte -> list byte.
Variable yaml_Unmarshal : list byte -> error + ProxySchema Mapping.
Variable ParseProxy : Mapping -> error + Proxy.

Local Abbreviation parse := (Provider.parse yaml_Unmarshal ParseProxy).
Local Abbreviation Initial := (Provider.Initial md5_Sum yaml_Unmarshal ParseProxy).
Local Abbreviation cache_in_sync := (Provider.cache_in_sync (Proxy := Proxy) md5_Sum).

(** X4. Whatever error [Initial] returns, it returns it before
    touching the fleet: the published proxies, the hash, the health
    check and the cache file are what they were before the call. *)
Theorem Initial_error_keeps_fleet (s : Sys Proxy) (e : error) :
  fst (Initial s) = Some e ->
  let s' := snd (Initial s) in
  proxies (pp s') = proxies (pp s) /\
  hash (pp s') = hash (pp s) /\
  healthCheck (pp s') = healthCheck (pp s) /\
  cache (world s') = cache (world s).
Proof.
  cbv zeta. revert e. open_sys s.
  Initial_paths p c rf wf rem n;
    intros e He; cbn in He; try discriminate He; repeat split.
Qed.

(** X5. While the cache path cannot be written, [Initial] cannot
    succeed, however good the cache file and the vehicle's documents
    are: it returns the error of [ioutil.WriteFile], unless the
    fallback read failed before. *)
Theorem Initial_unwritable_cache_fails (s : Sys Proxy) (ew : error) :
  writefile_fault (world s) = Some ew ->
  exists e,
    fst (Initial s) = Some e /\
    (e = ew \/
     (snd (parse (first_buf (world s))) <> None /\
      snd (remote (world s) (fallback_index (world s))) = Some e)).
Proof.
  open_sys s. unfold first_buf, fallback_index; cbn. intros ->.
  Initial_paths p c rf wf rem n;
    (eexists; split; [reflexivity|]);
    first [ left; reflexivity
          | right; split; [discriminate | reflexivity] ].
Qed.

(** X6. After an [Initial] that returns success, the cache file holds
    the bytes whose digest is the stored hash, and the health check
    has been handed exactly the list that is published. *)
Theorem Initial_success_syncs_cache_and_hash (s : Sys Proxy) :
  fst (Initial s) = None ->
  cache_in_sync (snd (Initial s)) /\
  targets_published (snd (Initial s)).
Proof.
  unfold Provider.cache_in_sync, targets_published, cached.
  open_sys s.
  Initial_paths p c rf wf rem n;
    intros He; cbn in He; try discriminate He;
    (split; [eexists; split; reflexivity | reflexivity]).
Qed.


(** X8. The only time stamp [Initial] ever stores is the modification
    time of the cache file: when [os.Stat] finds the file, [updatedAt]
    is that time whatever happens next; when it finds none, [updatedAt]
    is left as it was, even if the first fetch succeeds. *)
Theorem Initial_updatedAt_is_cache_mtime (s : Sys Proxy) :
  updatedAt (pp (snd (Initial s))) =
    match cache (world s) with
    | Some f => Some (f_modTime f)
    | None => updatedAt (pp s)
    end.
Proof.
  open_sys s. Initial_paths p c rf wf rem n; reflexivity.
Qed.


End InitialProperties.

(** * More about [pull] and the refresh loop *)

Section PullProperties.

Context {Proxy Mapping : Type}.
Variable md5_Sum : list byte -> list byte.
Variable yaml_Unmarshal : list byte -> error + ProxySchema Mapping.
Variable ParseProxy : Mapping -> error + Proxy.

Local Abbreviation parse := (Provider.parse yaml_Unmarshal ParseProxy).
Local Abbreviation pull := (Provider.pull md5_Sum yaml_Unmarshal ParseProxy).
Local Abbreviation pullLoop_run :=
  (Provider.pullLoop_run md5_Sum yaml_Unmarshal ParseProxy).
Local Abbreviation cache_in_sync := (Provider.cache_in_sync (Proxy := Proxy) md5_Sum).

(** Every path of [pull]. *)
Ltac pull_paths p wf rem n :=
  go_unfold; cbn;
  destruct (rem n) as [b [e1|]] eqn:Hr; cbn;
  [ idtac
  | destruct (bytes_Equal (hash p) (md5_Sum b)) eqn:Heq; cbn;
    [ idtac
    | destruct (parse b) as [ps [e2|]] eqn:Hp; cbn;
      [ idtac | destruct wf as [e3|]; cbn ] ] ].

(** X10. [pull] returns success exactly when the fetch succeeds and
    either the digest of the fetched bytes is the stored hash, or the
    bytes parse and the cache file can be written. *)
Theorem pull_success_iff (s : Sys Proxy) :
  let w := world s in
  fst (pull s) = None <->
  exists b,
    remote w (fetched w) = (b, None) /\
    (md5_Sum b = hash (pp s) \/
     (snd (parse b) = None /\ writefile_fault w = None)).
Proof.
  cbv zeta. open_sys s. pull_paths p wf rem n.
  - split; [discriminate|]. intros (b' & H & _). discriminate H.
  - split; [intros _ | reflexivity].
    exists b. split; [reflexivity|]. left. symmetry.
    now apply bytes_Equal_spec.
  - split; [discriminate|]. intros (b' & [= <-] & [H|[H _]]).
    + symmetry in H. apply bytes_Equal_spec in H. congruence.
    + rewrite Hp in H. discriminate H.
  - split; [discriminate|]. intros (b' & [= <-] & [H|[_ H]]).
    + symmetry in H. apply bytes_Equal_spec in H. congruence.
    + discriminate H.
  - split; [intros _ | reflexivity].
    exists b. split; [reflexivity|]. right. rewrite Hp. split; reflexivity.
Qed.

(** What a successful [pull] leaves in the hash and the time stamp. *)
Lemma pull_success_state (s : Sys Proxy) :
  fst (pull s) = None ->
  hash (pp (snd (pull s)))
  = md5_Sum (fst (remote (world s) (fetched (world s)))) /\
  updatedAt (pp (snd (pull s))) = Some (now (world s) (ticks (world s))) /\
  writefile_fault (world (snd (pull s))) = writefile_fault (world s) /\
  remote (world (snd (pull s))) = remote (world s) /\
  fetched (world (snd (pull s))) = S (fetched (world s)) /\
  now (world (snd (pull s))) = now (world s) /\
  ticks (world (snd (pull s))) = S (ticks (world s)).
Proof.
  open_sys s. pull_paths p wf rem n; intros H; try discriminate H;
    repeat split.
  now apply bytes_Equal_spec.
Qed.

(** X11. After a [pull] that returns success, whether it republished
    or not, the stored hash is the digest of the bytes the vehicle
    served and [updatedAt] is the time of that call. *)
Theorem pull_success_hash_is_digest (s : Sys Proxy) (b : list byte) :
  let w := world s in
  remote w (fetched w) = (b, None) ->
  fst (pull s) = None ->
  hash (pp (snd (pull s))) = md5_Sum b /\
  updatedAt (pp (snd (pull s))) = Some (now w (ticks w)).
Proof.
  cbv zeta. intros Hr Hok.
  destruct (pull_success_state s Hok) as (Hh & Hu & _).
  rewrite Hr in Hh. auto.
Qed.

(** X12. Once a [pull] has succeeded on bytes [b], a second [pull]
    that is served [b] again succeeds and does nothing but read and
    stamp the time: no parse, no write, no publication, whether or not
    the first one republished. *)
Theorem pull_twice_second_is_noop (s : Sys Proxy) (b : list byte) :
  let w := world s in
  remote w (fetched w) = (b, None) ->
  remote w (S (fetched w)) = (b, None) ->
  fst (pull s) = None ->
  let s1 := snd (pull s) in
  let s2 := snd (pull s1) in
  fst (pull s1) = None /\
  proxies (pp s2) = proxies (pp s1) /\
  hash (pp s2) = hash (pp s1) /\
  healthCheck (pp s2) = healthCheck (pp s1) /\
  cache (world s2) = cache (world s1) /\
  trace s2 =
    trace s1 ++ [EvRead b None; EvUpdatedAt (now w (S (ticks w)))].
Proof.
  cbv zeta. intros Hr1 Hr2 Hok.
  destruct (pull_success_state s Hok) as (Hh & _ & _ & Hrem & Hf & Hnow & Htk).
  rewrite Hr1 in Hh. cbn in Hh.
  assert (Hr : remote (world (snd (pull s))) (fetched (world (snd (pull s))))
               = (b, None)) by (rewrite Hrem, Hf; exact Hr2).
  rewrite (pull_unchanged_run _ _ _ (snd (pull s)) Hr (eq_sym Hh)).
  cbn. rewrite Hnow, Htk. repeat split.
Qed.

(** One [pull] keeps each of the three invariants. *)
Lemma pull_keeps_invariants (s : Sys Proxy) :
  (fleet_nonempty s -> fleet_nonempty (snd (pull s))) /\
  (cache_in_sync s -> cache_in_sync (snd (pull s))) /\
  (targets_published s -> targets_published (snd (pull s))).
Proof.
  unfold fleet_nonempty, Provider.cache_in_sync, targets_published, cached.
  open_sys s. pull_paths p wf rem n; repeat split; try (intros H; exact H).
  - intros _. destruct (parse_ok_nonempty _ _ _ Hp) as (q & l & ->).
    apply Nat.lt_0_succ.
  - intros _. exists b. split; reflexivity.
Qed.

(** X13. A [pull] never empties the fleet: if at least one proxy is
    published before the call, at least one is published after it,
    whatever the vehicle serves and whatever fails. *)
Theorem pull_keeps_fleet_nonempty (s : Sys Proxy) :
  0 < len (ProxySetProvider_Proxies (pp s)) ->
  0 < len (ProxySetProvider_Proxies (pp (snd (pull s)))).
Proof.
  unfold ProxySetProvider_Proxies.
  open_sys s. pull_paths p wf rem n; intros H; try exact H.
  destruct (parse_ok_nonempty _ _ _ Hp) as (q & l & ->).
  apply Nat.lt_0_succ.
Qed.

(** X14. A [pull] keeps the stored hash the digest of the cache file:
    if the hash is the digest of the bytes in the file before the
    call, it is after it, whether the call republished, found nothing
    new, or failed. *)
Theorem pull_keeps_cache_in_sync (s : Sys Proxy) :
  cache_in_sync s -> cache_in_sync (snd (pull s)).
Proof.
  unfold Provider.cache_in_sync, cached.
  open_sys s. pull_paths p wf rem n; intros H; try exact H.
  exists b. split; reflexivity.
Qed.

Lemma pullLoop_run_facts (n : nat) :
  forall s : Sys Proxy,
    let r := pullLoop_run n s in
    (fleet_nonempty s -> fleet_nonempty (snd r)) /\
    (cache_in_sync s -> cache_in_sync (snd r)) /\
    (targets_published s -> targets_published (snd r)) /\
    fetched (world (snd r)) = n + fetched (world s) /\
    List.length (fst r) <= n /\
    name (pp (snd r)) = name (pp s) /\
    forall warning, In warning (fst r) -> fst warning = name (pp s).
Proof.
  induction n as [|n IH]; intros s; cbn zeta.
  - cbn. repeat split; auto. intros ? [].
  - cbn [Provider.pullLoop_run].
    destruct (pull s) as [err s1] eqn:Hpull.
    specialize (IH s1). cbn zeta in IH.
    destruct (pullLoop_run n s1) as [warnings s2] eqn:Hrun. cbn [fst snd] in *.
    destruct IH as (I1 & I2 & I3 & I4 & I5 & I6 & I7).
    destruct (pull_keeps_invariants s) as (P1 & P2 & P3).
    rewrite Hpull in P1, P2, P3. cbn [snd] in *.
    assert (Hf : fetched (world s1) = S (fetched (world s)) /\
                 name (pp s1) = name (pp s)).
    { replace s1 with (snd (pull s)) by (now rewrite Hpull).
      clear. open_sys s. pull_paths p wf rem n; split; reflexivity. }
    destruct Hf as [Hf Hn].
    repeat split; auto.
    + rewrite I4, Hf. now rewrite Nat.add_succ_r.
    + destruct err; cbn; [apply le_n_S|apply le_S]; exact I5.
    + congruence.
    + intros warning Hin. destruct err as [e|].
      * destruct Hin as [<- | Hin]; [exact Hn | rewrite (I7 _ Hin); exact Hn].
      * rewrite (I7 _ Hin); exact Hn.
Qed.


(** X16. The refresh loop does not stop at a failed pull: over [n]
    ticks it reads the vehicle exactly [n] times and logs at most [n]
    warnings, each under the provider's name. *)
Theorem pullLoop_one_fetch_per_tick (n : nat) (s : Sys Proxy) :
  let r := pullLoop_run n s in
  fetched (world (snd r)) = n + fetched (world s) /\
  List.length (fst r) <= n /\
  forall warning, In warning (fst r) -> fst warning = Name (pp s).
Proof.
  cbv zeta.
  destruct (pullLoop_run_facts n s) as (_ & _ & _ & I4 & I5 & _ & I7).
  auto.
Qed.

End PullProperties.

(** * More about the vmess adapter *)

Lemma copy_length (dst src : list byte) :
  List.length (Vmess.copy dst src) = List.length dst.
Proof.
  unfold Vmess.copy. rewrite length_app, length_firstn, length_skipn. lia.
Qed.

Lemma copy_exact (dst src : list byte) :
  List.length src = List.length dst -> Vmess.copy dst src = src.
Proof.
  intros H. unfold Vmess.copy.
  rewrite <- H, firstn_all, H, skipn_all. apply app_nil_r.
Qed.

Lemma copy_nil (dst : list byte) : Vmess.copy dst [] = dst.
Proof. unfold Vmess.copy. now rewrite firstn_nil. Qed.

Lemma make_length (n : nat) : List.length (Vmess.make n) = n.
Proof. apply repeat_length. Qed.

Lemma list_byte_of_string_length (s : string) :
  List.length (list_byte_of_string s) = String.length s.
Proof.
  unfold list_byte_of_string. rewrite length_map.
  induction s as [|a s IH]; cbn; congruence.
Qed.

(** The low eight bits of a number, as a byte. *)
Lemma byte_of_int_to_N (n : Z) :
  Z.of_N (Byte.to_N (Vmess.byte_of_int n)) = (n mod 256)%Z.
Proof.
  unfold Vmess.byte_of_int.
  assert (Hr : (0 <= n mod 256 < 256)%Z) by (apply Z.mod_pos_bound; lia).
  destruct (Byte.of_N (Z.to_N (n mod 256))) as [b|] eqn:E.
  - apply Byte.to_of_N in E. rewrite E. lia.
  - apply Byte.of_N_None_iff in E. lia.
Qed.

Section VmessProperties.

Variables C_AtypIPv4 C_AtypDomainName C_AtypIPv6 : Z.
Variable C_UDP : Z.
Variables vmess_AtypIPv4 vmess_AtypDomainName vmess_AtypIPv6 : byte.
Variables IP_To4 IP_To16 : list byte -> list byte.
Variable strconv_Atoi : string -> Z * option error.

Local Abbreviation parseVmessAddr :=
  (Vmess.parseVmessAddr C_AtypIPv4 C_AtypDomainName C_AtypIPv6 C_UDP
     vmess_AtypIPv4 vmess_AtypDomainName vmess_AtypIPv6
     IP_To4 IP_To16 strconv_Atoi).

(** X18. For a metadata of the IPv4 kind, [parseVmessAddr] always
    gives an address of exactly four bytes: the bytes of
    [DstIP.To4()] when that has four, and 0.0.0.0 when [To4] returns
    nil because [DstIP] is not an IPv4 address. *)
Theorem parseVmessAddr_ipv4 (metadata : Vmess.Metadata) :
  Vmess.AddrType metadata = C_AtypIPv4 ->
  let ip4 := IP_To4 (Vmess.DstIP metadata) in
  Vmess.dst_AddrType (parseVmessAddr metadata) = vmess_AtypIPv4 /\
  len (Vmess.Addr (parseVmessAddr metadata)) = 4 /\
  (List.length ip4 = 4 -> Vmess.Addr (parseVmessAddr metadata) = Some ip4) /\
  (ip4 = [] ->
   Vmess.Addr (parseVmessAddr metadata) = Some (repeat "000"%byte 4)).
Proof.
  intros Hk. cbv zeta. unfold Vmess.parseVmessAddr.
  rewrite Hk, Z.eqb_refl.
  destruct (strconv_Atoi (Vmess.DstPort metadata)) as [port err].
  cbn [Vmess.dst_AddrType Vmess.Addr len]. repeat split.
  - now rewrite copy_length.
  - intros H4. now rewrite copy_exact.
  - intros ->. now rewrite copy_nil.
Qed.

(** X19. For a metadata of the IPv6 kind, [parseVmessAddr] always
    gives an address of exactly sixteen bytes: the bytes of
    [DstIP.To16()] when that has sixteen, and the all-zero address
    when [To16] returns nil. *)
Theorem parseVmessAddr_ipv6 (metadata : Vmess.Metadata) :
  C_AtypIPv6 <> C_AtypIPv4 ->
  Vmess.AddrType metadata = C_AtypIPv6 ->
  let ip16 := IP_To16 (Vmess.DstIP metadata) in
  Vmess.dst_AddrType (parseVmessAddr metadata) = vmess_AtypIPv6 /\
  len (Vmess.Addr (parseVmessAddr metadata)) = 16 /\
  (List.length ip16 = 16 ->
   Vmess.Addr (parseVmessAddr metadata) = Some ip16) /\
  (ip16 = [] ->
   Vmess.Addr (parseVmessAddr metadata) = Some (repeat "000"%byte 16)).
Proof.
  intros Hd Hk. cbv zeta. unfold Vmess.parseVmessAddr.
  rewrite Hk, (proj2 (Z.eqb_neq _ _) Hd), Z.eqb_refl.
  destruct (strconv_Atoi (Vmess.DstPort metadata)) as [port err].
  cbn [Vmess.dst_AddrType Vmess.Addr len]. repeat split.
  - now rewrite copy_length.
  - intros H16. now rewrite copy_exact.
  - intros ->. now rewrite copy_nil.
Qed.

(** The address of a metadata of the domain-name kind. *)
Lemma parseVmessAddr_domain_addr (metadata : Vmess.Metadata) :
  C_AtypDomainName <> C_AtypIPv4 ->
  C_AtypDomainName <> C_AtypIPv6 ->
  Vmess.AddrType metadata = C_AtypDomainName ->
  Vmess.dst_AddrType (parseVmessAddr metadata) = vmess_AtypDomainName /\
  Vmess.Addr (parseVmessAddr metadata) =
    Some (Vmess.byte_of_int (Z.of_nat (String.length (Vmess.Host metadata)))
            :: list_byte_of_string (Vmess.Host metadata)).
Proof.
  intros H4 H6 Hk. unfold Vmess.parseVmessAddr.
  rewrite Hk, (proj2 (Z.eqb_neq _ _) H4), (proj2 (Z.eqb_neq _ _) H6),
    Z.eqb_refl.
  destruct (strconv_Atoi (Vmess.DstPort metadata)) as [port err].
  cbn [Vmess.dst_AddrType Vmess.Addr].
  rewrite copy_exact by (now rewrite make_length).
  now rewrite list_byte_of_string_length.
Qed.

(** X20. For a metadata of the domain-name kind whose host is shorter
    than 256 bytes, the address is the length of the host in one byte
    followed by the bytes of the host: the host can be read back from
    it. *)
Theorem parseVmessAddr_domain_round_trip (metadata : Vmess.Metadata) :
  C_AtypDomainName <> C_AtypIPv4 ->
  C_AtypDomainName <> C_AtypIPv6 ->
  Vmess.AddrType metadata = C_AtypDomainName ->
  String.length (Vmess.Host metadata) < 256 ->
  exists (n : byte) (host : list byte),
    Vmess.Addr (parseVmessAddr metadata) = Some (n :: host) /\
    Byte.to_nat n = List.length host /\
    string_of_list_byte host = Vmess.Host metadata.
Proof.
  intros H4 H6 Hk Hlen.
  destruct (parseVmessAddr_domain_addr metadata H4 H6 Hk) as [_ Ha].
  eexists _, _. split; [exact Ha|]. split.
  - rewrite list_byte_of_string_length.
    pose proof (byte_of_int_to_N
                  (Z.of_nat (String.length (Vmess.Host metadata)))) as Hb.
    rewrite Z.mod_small in Hb by lia.
    rewrite Byte.to_N_via_nat in Hb. lia.
  - apply string_of_list_byte_of_string.
Qed.

(** X21. The length byte of a domain-name address holds the length of
    the host modulo 256: for a host of 256 bytes or more it announces
    fewer bytes than the address carries after it. *)
Theorem parseVmessAddr_domain_length_wraps (metadata : Vmess.Metadata) :
  C_AtypDomainName <> C_AtypIPv4 ->
  C_AtypDomainName <> C_AtypIPv6 ->
  Vmess.AddrType metadata = C_AtypDomainName ->
  256 <= String.length (Vmess.Host metadata) ->
  exists (n : byte) (host : list byte),
    Vmess.Addr (parseVmessAddr metadata) = Some (n :: host) /\
    List.length host = String.length (Vmess.Host metadata) /\
    Byte.to_nat n = String.length (Vmess.Host metadata) mod 256 /\
    Byte.to_nat n < List.length host.
Proof.
  intros H4 H6 Hk Hlen.
  destruct (parseVmessAddr_domain_addr metadata H4 H6 Hk) as [_ Ha].
  eexists _, _. split; [exact Ha|].
  rewrite list_byte_of_string_length.
  pose proof (byte_of_int_to_N
                (Z.of_nat (String.length (Vmess.Host metadata)))) as Hb.
  rewrite Byte.to_N_via_nat, nat_N_Z in Hb.
  assert (Hn : Byte.to_nat
                 (Vmess.byte_of_int
                    (Z.of_nat (String.length (Vmess.Host metadata))))
               = String.length (Vmess.Host metadata) mod 256).
  { apply Nat2Z.inj. rewrite Hb, Nat2Z.inj_mod. reflexivity. }
  repeat split; [exact Hn|].
  rewrite Hn.
  pose proof (Nat.mod_upper_bound (String.length (Vmess.Host metadata)) 256).
  lia.
Qed.

(** X22. [parseVmessAddr] never rejects a port: whatever
    [strconv.Atoi] answers for [DstPort], error included, the [Port]
    is the number it returned converted to [uint]: the number itself
    when it is not negative, and 2^64 more when it is. *)
Theorem parseVmessAddr_port
    (metadata : Vmess.Metadata) (port : Z) (err : option error) :
  strconv_Atoi (Vmess.DstPort metadata) = (port, err) ->
  (- 2 ^ 63 <= port < 2 ^ 63)%Z ->
  (0 <= Vmess.Port (parseVmessAddr metadata) < 2 ^ 64)%Z /\
  ((0 <= port)%Z -> Vmess.Port (parseVmessAddr metadata) = port) /\
  ((port < 0)%Z ->
   Vmess.Port (parseVmessAddr metadata) = (2 ^ 64 + port)%Z).
Proof.
  intros Hp Hrange. unfold Vmess.parseVmessAddr. rewrite Hp.
  destruct (Vmess.AddrType metadata =? C_AtypIPv4)%Z;
    [|destruct (Vmess.AddrType metadata =? C_AtypIPv6)%Z;
      [|destruct (Vmess.AddrType metadata =? C_AtypDomainName)%Z]];
    cbn [Vmess.Port]; unfold Vmess.uint_of_int;
    (repeat split;
     [ apply Z.mod_pos_bound; lia
     | apply Z.mod_pos_bound; lia
     | intros H0; apply Z.mod_small; lia
     | intros H0;
       rewrite <- (Z.mod_add port 1 (2 ^ 64)) by lia;
       rewrite Z.mul_1_l, Z.add_comm; apply Z.mod_small; lia ]).
Qed.

End VmessProperties.

Section NewVmessProperties.

Context {Headers SessionCache Client AdapterType : Type}.
Variable getClientSessionCache : SessionCache.
Variable C_Vmess : AdapterType.
Variable strings_ToLower : string -> string.
Variable strconv_Itoa : Z -> string.
Variable net_JoinHostPort : string -> string -> string.
Variable vmess_NewClient :
  Vmess.Config Headers SessionCache -> Client * option error.

Local Abbreviation NewVmess :=
  (Vmess.NewVmess getClientSessionCache C_Vmess strings_ToLower
     strconv_Itoa net_JoinHostPort vmess_NewClient).

(** X23. [NewVmess] never reads the [udp] option: two options that
    differ only there give the same result, and every adapter it
    returns has [udp] set. It returns an adapter exactly when it
    returns no error. *)
Theorem NewVmess_ignores_udp_option
    (opt : Vmess.VmessOption Headers) (b : bool) :
  NewVmess (Vmess.with_o_UDP b opt) = NewVmess opt /\
  (forall v, fst (NewVmess opt) = Some v ->
             Vmess.b_udp (Vmess.v_Base v) = true) /\
  (fst (NewVmess opt) = None <-> snd (NewVmess opt) <> None).
Proof.
  unfold Vmess.NewVmess. cbn.
  destruct (vmess_NewClient _) as [client [e|]]; cbn; repeat split;
    try discriminate; try congruence.
  intros v [= <-]. reflexivity.
Qed.

(** X24. [NewVmess] keeps the low sixteen bits of [alterId] only: two
    options whose [alterId]s differ by a multiple of 65536 give the
    same result. *)
Theorem NewVmess_alterId_wraps
    (opt : Vmess.VmessOption Headers) (k : Z) :
  NewVmess (Vmess.with_o_AlterID (Vmess.o_AlterID opt + k * 65536) opt)
  = NewVmess opt.
Proof.
  unfold Vmess.NewVmess, Vmess.uint16_of_int. cbn.
  change (2 ^ 16)%Z with 65536%Z.
  rewrite Z.mod_add by lia. reflexivity.
Qed.

End NewVmessProperties.

Section DialProperties.

Variables C_AtypIPv4 C_AtypDomainName C_AtypIPv6 : Z.
Variable C_UDP : Z.
Variables vmess_AtypIPv4 vmess_AtypDomainName vmess_AtypIPv6 : byte.
Variables IP_To4 IP_To16 : list byte -> list byte.
Variable strconv_Atoi : string -> Z * option error.
Context {Client AdapterType Conn CConn PacketConn NetAddr : Type}.
Variable Metadata_Resolved : Vmess.Metadata -> bool.
Variable Metadata_UDPAddr : Vmess.Metadata -> NetAddr.
Variable newConn : Conn -> Vmess.Vmess Client AdapterType -> CConn.
Variable newPacketConn :
  Vmess.vmessPacketConn Conn NetAddr ->
  Vmess.Vmess Client AdapterType -> PacketConn.
Variable resolver_ResolveIP : string -> list byte * option error.
Variable dialer_DialContext : string -> string -> Conn * option error.
Variable client_New :
  Client -> Conn -> Vmess.DstAddr -> Conn * option error.

Local Abbreviation parseVmessAddr :=
  (Vmess.parseVmessAddr C_AtypIPv4 C_AtypDomainName C_AtypIPv6 C_UDP
     vmess_AtypIPv4 vmess_AtypDomainName vmess_AtypIPv6
     IP_To4 IP_To16 strconv_Atoi).
Local Abbreviation DialContext :=
  (Vmess.DialContext C_AtypIPv4 C_AtypDomainName C_AtypIPv6 C_UDP
     vmess_AtypIPv4 vmess_AtypDomainName vmess_AtypIPv6
     IP_To4 IP_To16 strconv_Atoi newConn dialer_DialContext client_New).
Local Abbreviation DialUDP :=
  (Vmess.DialUDP C_AtypIPv4 C_AtypDomainName C_AtypIPv6 C_UDP
     vmess_AtypIPv4 vmess_AtypDomainName vmess_AtypIPv6
     IP_To4 IP_To16 strconv_Atoi Metadata_Resolved Metadata_UDPAddr
     newPacketConn resolver_ResolveIP dialer_DialContext client_New).

(** X25. [DialContext] returns a nil connection exactly when the TCP
    dial to the server fails; the error is then the connect error that
    names the server, whatever the cause, and [client.New] is not
    called. When the dial succeeds, the connection is returned
    together with whatever error [client.New] gave. *)
Theorem DialContext_outcomes
    (v : Vmess.Vmess Client AdapterType) (metadata : Vmess.Metadata) :
  let dialed := dialer_DialContext "tcp" (Vmess.v_server v) in
  let '(conn, err, calls) := DialContext v metadata in
  (conn = None <-> snd dialed <> None) /\
  (conn = None ->
   err = Some (Vmess.ErrConnect v) /\
   calls = [Vmess.DDial "tcp" (Vmess.v_server v)]) /\
  (snd dialed = None ->
   err = snd (client_New (Vmess.v_client v) (fst dialed)
                (parseVmessAddr metadata)) /\
   calls = [Vmess.DDial "tcp" (Vmess.v_server v); Vmess.DKeepAlive;
            Vmess.DClientNew (parseVmessAddr metadata)]).
Proof.
  cbv zeta. unfold Vmess.DialContext.
  destruct (dialer_DialContext "tcp" (Vmess.v_server v)) as [c [e|]]; cbn.
  - repeat split; try discriminate; try reflexivity.
  - destruct (client_New _ c _) as [c' err']; cbn.
    repeat split; try discriminate; try congruence.
Qed.

(** X26. [DialUDP] returns a packet connection exactly when it returns
    no error, and an error it returns is one of three: the host could
    not be resolved, the server could not be reached, or [client.New]
    failed, the last one carrying the text of the cause. *)
Theorem DialUDP_result_exclusive
    (v : Vmess.Vmess Client AdapterType) (metadata : Vmess.Metadata) :
  let '(pc, err, _, _) := DialUDP v metadata in
  (pc = None <-> err <> None) /\
  (forall e, err = Some e ->
     e = Vmess.ErrResolve \/ e = Vmess.ErrConnect v \/
     exists cause, e = Vmess.ErrClient cause).
Proof.
  unfold Vmess.DialUDP.
  destruct (Metadata_Resolved metadata); cbn;
    try (destruct (resolver_ResolveIP _) as [ip [e0|]]; cbn);
    try (destruct (dialer_DialContext _ _) as [c [e1|]]; cbn);
    try (destruct (client_New _ _ _) as [c' [e2|]]; cbn);
    (split; [split; intros H; try discriminate H; try congruence|]);
    intros e [= <-]; eauto.
Qed.

(** X27. The only thing [DialUDP] changes in the caller's metadata is
    [DstIP], and only when the metadata was not resolved and the
    resolver answered: the resolved address is stored, and it stays
    stored when the dial or [client.New] then fails. *)
Theorem DialUDP_metadata_effect
    (v : Vmess.Vmess Client AdapterType) (metadata : Vmess.Metadata) :
  let '(_, _, metadata', _) := DialUDP v metadata in
  metadata' =
    (if Metadata_Resolved metadata then metadata
     else match resolver_ResolveIP (Vmess.Host metadata) with
          | (ip, None) => Vmess.with_DstIP ip metadata
          | (_, Some _) => metadata
          end) /\
  Vmess.Host metadata' = Vmess.Host metadata /\
  Vmess.DstPort metadata' = Vmess.DstPort metadata /\
  Vmess.AddrType metadata' = Vmess.AddrType metadata /\
  Vmess.NetWork metadata' = Vmess.NetWork metadata.
Proof.
  unfold Vmess.DialUDP.
  destruct (Metadata_Resolved metadata); cbn;
    try (destruct (resolver_ResolveIP _) as [ip [e0|]]; cbn);
    try (destruct (dialer_DialContext _ _) as [c [e1|]]; cbn);
    try (destruct (client_New _ _ _) as [c' [e2|]]; cbn);
    repeat split.
Qed.

(** X28. [DialUDP] resolves before it dials and only when it must: the
    resolver is asked, for the host of the metadata, exactly when the
    metadata is not resolved; and when the resolver fails nothing else
    is called: no dial is attempted. *)
Theorem DialUDP_resolves_first
    (v : Vmess.Vmess Client AdapterType) (metadata : Vmess.Metadata) :
  let '(_, _, _, calls) := DialUDP v metadata in
  (forall host,
     In (Vmess.DResolve host) calls <->
     Metadata_Resolved metadata = false /\ host = Vmess.Host metadata) /\
  (Metadata_Resolved metadata = false ->
   snd (resolver_ResolveIP (Vmess.Host metadata)) <> None ->
   calls = [Vmess.DResolve (Vmess.Host metadata)]) /\
  (Metadata_Resolved metadata = false ->
   hd_error calls = Some (Vmess.DResolve (Vmess.Host metadata))).
Proof.
  unfold Vmess.DialUDP.
  destruct (Metadata_Resolved metadata); cbn;
    try (destruct (resolver_ResolveIP _) as [ip [e0|]]; cbn);
    try (destruct (dialer_DialContext _ _) as [c [e1|]]; cbn);
    try (destruct (client_New _ _ _) as [c' [e2|]]; cbn);
    (split; [intros host; split; intros H|split; intros H; try intros H']);
    repeat match goal with
           | H : _ \/ _ |- _ => destruct H as [H|H]
           | H : _ /\ _ |- _ => destruct H as [? H]
           end;
    try discriminate; try contradiction; try congruence;
    try (injection H as <-; auto);
    try (subst; auto).
Qed.

End DialProperties.

(** * [Initial], then [pull] *)

Section LifecycleProperties.

Context {Proxy Mapping : Type}.
Variable md5_Sum : list byte -> list byte.
Variable yaml_Unmarshal : list byte -> error + ProxySchema Mapping.
Variable ParseProxy : Mapping -> error + Proxy.

Local Abbreviation parse := (Provider.parse yaml_Unmarshal ParseProxy).
Local Abbreviation Initial := (Provider.Initial md5_Sum yaml_Unmarshal ParseProxy).
Local Abbreviation pull := (Provider.pull md5_Sum yaml_Unmarshal ParseProxy).

(** X17. When [Initial] has loaded a buffer that parses, a [pull] that
    is then served the same bytes finds nothing new: it succeeds,
    keeps the list [Initial] published, and makes no other call than
    the read and the time stamp. *)
Theorem Initial_then_pull_same_bytes (s : Sys Proxy) (ps : slice Proxy) :
  let buf := first_buf (world s) in
  let s1 := snd (Initial s) in
  parse buf = (ps, None) ->
  writefile_fault (world s) = None ->
  remote (world s1) (fetched (world s1)) = (buf, None) ->
  fst (Initial s) = None /\
  fst (pull s1) = None /\
  proxies (pp (snd (pull s1))) = ps /\
  hash (pp (snd (pull s1))) = md5_Sum buf /\
  cached (world (snd (pull s1))) = Some buf /\
  trace (snd (pull s1)) =
    trace s1 ++
    [EvRead buf None; EvUpdatedAt (now (world s1) (ticks (world s1)))].
Proof.
  cbv zeta. intros Hp Hw Hr.
  destruct (Initial_parse_ok_run md5_Sum _ _ s Hp Hw)
    as (Hok & Hps & _ & Hh & Hc).
  rewrite (pull_unchanged_run _ _ _ _ Hr (eq_sym Hh)). cbn.
  unfold cached in *. cbn. repeat split; assumption.
Qed.

End LifecycleProperties.

(** * More concrete runs *)

(** Discharge the first hypothesis of [H] by computation. *)
Ltac feed H :=
  lazymatch type of H with
  | ?A -> _ =>
      let h := fresh "h" in
      assert (h : A) by
        first [ reflexivity
              | vm_compute; reflexivity
              | vm_compute; intros E; discriminate E
              | vm_compute; lia ];
      specialize (H h)
  end.

Section MoreRuns.

Local Abbreviation md5 := Sample.md5_Sum.
Local Abbreviation yaml := Sample.yaml_Unmarshal.
Local Abbreviation entry := Sample.ParseProxy.
Local Abbreviation cache_in_sync :=
  (Provider.cache_in_sync (Proxy := Sample.Proxy) md5).

(** The document whose entries 0 and 2 are valid and whose entry 1 is
    not: the error names entry 1. *)
Lemma parse_reports_first_rejected_witness :
  nth_error ["001"; "000"; "002"]%byte 1 = Some "000"%byte /\
  exists j m' e',
    j <= 1 /\
    nth_error ["001"; "000"; "002"]%byte j = Some m' /\
    entry m' = inl e' /\
    (forall i mi, i < j -> nth_error ["001"; "000"; "002"]%byte i = Some mi ->
                  exists p, entry mi = inr p) /\
    Sample.parse Sample.doc_bad2 = (None, Some (Errorf_Proxy j e')).
Proof.
  split; [reflexivity|].
  exact (@parse_reports_first_rejected _ _ yaml entry Sample.doc_bad2
           ["001"; "000"; "002"]%byte 1 "000"%byte Sample.unsupported
           eq_refl eq_refl eq_refl).
Defined.

(** A bad cache file and no network: [Initial] fails and the fresh
    provider is untouched. *)
Lemma Initial_error_keeps_fleet_witness :
  fst (Sample.Initial Sample.bad_entry_offline_sys)
  = Some Sample.unreachable /\
  proxies (pp (snd (Sample.Initial Sample.bad_entry_offline_sys)))
  = Some [] /\
  hash (pp (snd (Sample.Initial Sample.bad_entry_offline_sys)))
  = repeat "000"%byte 16.
Proof.
  unfold Sample.Initial.
  pose proof (@Initial_error_keeps_fleet _ _ md5 yaml entry
                Sample.bad_entry_offline_sys Sample.unreachable) as H.
  cbv zeta in H. feed H. destruct H as (H1 & H2 & _).
  split; [exact h|]. split; [rewrite H1 | rewrite H2]; reflexivity.
Defined.

(** A valid cache file on a path that cannot be written. *)
Lemma Initial_unwritable_cache_fails_witness :
  writefile_fault (world Sample.read_only_start_sys)
  = Some Sample.read_only /\
  Sample.parse Sample.doc12 = (Some [1; 2], None) /\
  exists e, fst (Sample.Initial Sample.read_only_start_sys) = Some e.
Proof.
  split; [reflexivity|]. split; [reflexivity|].
  destruct (@Initial_unwritable_cache_fails _ _ md5 yaml entry
              Sample.read_only_start_sys Sample.read_only eq_refl)
    as (e & He & _).
  exists e. exact He.
Defined.

(** A start from a valid cache file. *)
Lemma Initial_success_syncs_cache_and_hash_witness :
  fst (Sample.Initial Sample.cache_hit_sys) = None /\
  cache_in_sync (snd (Sample.Initial Sample.cache_hit_sys)) /\
  targets_published (snd (Sample.Initial Sample.cache_hit_sys)).
Proof.
  unfold Sample.Initial.
  pose proof (@Initial_success_syncs_cache_and_hash _ _ md5 yaml entry
                Sample.cache_hit_sys) as H.
  feed H. split; [exact h | exact H].
Defined.


(** A fresh provider is served [doc12]. *)
Lemma pull_success_hash_is_digest_witness :
  fst (Sample.pull Sample.two_updates_sys) = None /\
  hash (pp (snd (Sample.pull Sample.two_updates_sys))) = md5 Sample.doc12 /\
  updatedAt (pp (snd (Sample.pull Sample.two_updates_sys))) = Some 1000%Z.
Proof.
  unfold Sample.pull.
  pose proof
    (@pull_success_hash_is_digest _ _ md5 yaml entry Sample.two_updates_sys
       Sample.doc12) as H.
  cbv zeta in H. do 2 feed H. destruct H as [Ha Hb].
  split; [exact h0|]. split; [exact Ha | rewrite Hb; reflexivity].
Defined.

(** A fresh provider is served [doc12] twice: the second [pull] only
    reads and stamps. *)
Lemma pull_twice_second_is_noop_witness :
  let s1 := snd (Sample.pull Sample.same_twice_sys) in
  let s2 := snd (Sample.pull s1) in
  fst (Sample.pull Sample.same_twice_sys) = None /\
  proxies (pp s1) = Some [1; 2] /\
  fst (Sample.pull s1) = None /\
  proxies (pp s2) = proxies (pp s1) /\
  trace s2 = trace s1 ++ [EvRead Sample.doc12 None; EvUpdatedAt 1001].
Proof.
  cbv zeta. unfold Sample.pull.
  pose proof
    (@pull_twice_second_is_noop _ _ md5 yaml entry Sample.same_twice_sys
       Sample.doc12) as H.
  cbv zeta in H. do 3 feed H.
  destruct H as (H1 & H2 & _ & _ & _ & H6).
  split; [exact h1|]. split; [vm_compute; reflexivity|].
  split; [exact H1|]. split; [exact H2 | rewrite H6; reflexivity].
Defined.

(** A running provider is served a bad document: the fleet stays. *)
Lemma pull_keeps_fleet_nonempty_witness :
  0 < len (ProxySetProvider_Proxies (pp Sample.bad_update_sys)) /\
  fst (Sample.pull Sample.bad_update_sys)
  = Some (Errorf_Proxy 1 Sample.unsupported) /\
  0 < len (ProxySetProvider_Proxies
             (pp (snd (Sample.pull Sample.bad_update_sys)))).
Proof.
  unfold Sample.pull.
  pose proof (@pull_keeps_fleet_nonempty _ _ md5 yaml entry
                Sample.bad_update_sys) as H.
  feed H. split; [exact h|]. split; [vm_compute; reflexivity | exact H].
Defined.

(** A running provider whose cache path cannot be written is served
    [doc3]: hash and cache file stay those of [doc12]. *)
Lemma pull_keeps_cache_in_sync_witness :
  cache_in_sync Sample.read_only_sys /\
  cache_in_sync (snd (Sample.pull Sample.read_only_sys)).
Proof.
  assert (H : cache_in_sync Sample.read_only_sys)
    by (exists Sample.doc12; split; reflexivity).
  split; [exact H|].
  exact (@pull_keeps_cache_in_sync _ _ md5 yaml entry
           Sample.read_only_sys H).
Defined.


(** A start from a valid cache file, then a [pull] served the same
    document. *)
Lemma Initial_then_pull_same_bytes_witness :
  let s1 := snd (Sample.Initial Sample.cache_then_same_sys) in
  fst (Sample.Initial Sample.cache_then_same_sys) = None /\
  fst (Sample.pull s1) = None /\
  proxies (pp (snd (Sample.pull s1))) = Some [1; 2].
Proof.
  cbv zeta. unfold Sample.Initial, Sample.pull.
  pose proof
    (@Initial_then_pull_same_bytes _ _ md5 yaml entry
       Sample.cache_then_same_sys (Some [1; 2])) as H.
  cbv zeta in H. do 3 feed H. destruct H as (H1 & H2 & H3 & _).
  split; [exact H1|]. split; [exact H2 | exact H3].
Defined.

(** An IPv4 metadata with a four-byte address, and one whose address
    is not IPv4. *)
Lemma parseVmessAddr_ipv4_witness :
  Vmess.Addr
    (Sample.parseVmessAddr
       (Sample.metadata_of 1 ["010"; "000"; "000"; "001"]%byte ""))
  = Some ["010"; "000"; "000"; "001"]%byte /\
  Vmess.Addr (Sample.parseVmessAddr (Sample.metadata_of 1 [] ""))
  = Some ["000"; "000"; "000"; "000"]%byte.
Proof.
  destruct
    (@parseVmessAddr_ipv4 1 3 4 1 "001"%byte "002"%byte "003"%byte
       Sample.To4 Sample.To16 (fun _ => (443%Z, None))
       (Sample.metadata_of 1 ["010"; "000"; "000"; "001"]%byte "") eq_refl)
    as (_ & _ & H1 & _).
  destruct
    (@parseVmessAddr_ipv4 1 3 4 1 "001"%byte "002"%byte "003"%byte
       Sample.To4 Sample.To16 (fun _ => (443%Z, None))
       (Sample.metadata_of 1 [] "") eq_refl)
    as (_ & _ & _ & H2).
  split; [exact (H1 eq_refl) | exact (H2 eq_refl)].
Defined.

Lemma parseVmessAddr_ipv6_witness :
  Vmess.dst_AddrType
    (Sample.parseVmessAddr (Sample.metadata_of 4 [] "")) = "003"%byte /\
  Vmess.Addr (Sample.parseVmessAddr (Sample.metadata_of 4 [] ""))
  = Some (repeat "000"%byte 16).
Proof.
  assert (Hd : 4%Z <> 1%Z) by discriminate.
  destruct
    (@parseVmessAddr_ipv6 1 3 4 1 "001"%byte "002"%byte "003"%byte
       Sample.To4 Sample.To16 (fun _ => (443%Z, None))
       (Sample.metadata_of 4 [] "") Hd eq_refl)
    as (H0 & _ & _ & H2).
  split; [exact H0 | exact (H2 eq_refl)].
Defined.

Lemma parseVmessAddr_domain_round_trip_witness :
  exists (n : byte) (host : list byte),
    Vmess.Addr (Sample.parseVmessAddr (Sample.metadata_of 3 [] "example.org"))
    = Some (n :: host) /\
    Byte.to_nat n = List.length host /\
    string_of_list_byte host = "example.org"%string.
Proof.
  assert (H4 : 3%Z <> 1%Z) by discriminate.
  assert (H6 : 3%Z <> 4%Z) by discriminate.
  assert (Hl : String.length "example.org" < 256) by (cbn; lia).
  exact (@parseVmessAddr_domain_round_trip 1 3 4 1
           "001"%byte "002"%byte "003"%byte
           Sample.To4 Sample.To16 (fun _ => (443%Z, None))
           (Sample.metadata_of 3 [] "example.org") H4 H6 eq_refl Hl).
Defined.

(** A host of 300 bytes: the length byte says 44. *)
Lemma parseVmessAddr_domain_length_wraps_witness :
  String.length Sample.long_host = 300 /\
  exists (n : byte) (host : list byte),
    Vmess.Addr (Sample.parseVmessAddr (Sample.metadata_of 3 [] Sample.long_host))
    = Some (n :: host) /\
    List.length host = 300 /\
    Byte.to_nat n = 44.
Proof.
  assert (H4 : 3%Z <> 1%Z) by discriminate.
  assert (H6 : 3%Z <> 4%Z) by discriminate.
  assert (Hl : String.length Sample.long_host = 300)
    by (vm_compute; reflexivity).
  assert (Hge : 256 <= String.length Sample.long_host)
    by (rewrite Hl; lia).
  split; [exact Hl|].
  destruct (@parseVmessAddr_domain_length_wraps 1 3 4 1
              "001"%byte "002"%byte "003"%byte
              Sample.To4 Sample.To16 (fun _ => (443%Z, None))
              (Sample.metadata_of 3 [] Sample.long_host) H4 H6 eq_refl Hge)
    as (n & host & Ha & Hlen & Hn & _).
  exists n, host. cbn [Vmess.Host Sample.metadata_of] in Hlen, Hn.
  rewrite Hl in Hlen, Hn.
  split; [exact Ha|]. split; [exact Hlen | exact Hn].
Defined.

Lemma parseVmessAddr_port_witness :
  Vmess.Port (Sample.parseVmessAddr (Sample.metadata_of 0 [] "")) = 443%Z.
Proof.
  destruct
    (@parseVmessAddr_port 1 3 4 1 "001"%byte "002"%byte "003"%byte
       Sample.To4 Sample.To16 (fun _ => (443%Z, None))
       (Sample.metadata_of 0 [] "") 443%Z None eq_refl)
    as (_ & H & _); [lia|].
  apply H. lia.
Defined.

End MoreRuns.
